(** * Tool-call dispatch and bounded retry: a shallow embedding

    The development embeds the JavaScript of [src/tools/others.js]
    ([delay], [retryOperation], [getYoutubeTranscript], [calculate],
    [manageToolCall], [processFunctionCallsNames]) and proves the
    properties stated about it.

    Conventions of the embedding.
    - JavaScript values are the inductive [value]; numbers are modelled on
      the integers (printed in decimal, as JavaScript prints every integer
      of magnitude below 10^21).
    - Strings are sequences of code units below 128 (ASCII), held in
      Rocq's [string]; [String.length] is then JavaScript's [length].
    - Asynchronous code runs to completion in sequence: a computation
      takes the state of the outside world and gives a completion (a
      normal result or a thrown value), the next state, and the trace of
      what it did (console output, timer waits, calls of function values).
      An awaited rejection is a thrown value.
    - Objects hold data only: no property of a [value] is a function.
      An own [toString] property is therefore never callable, and
      converting such an object to a string fails, as it does in
      JavaScript.
    - Messages of errors raised by the engine itself are written as V8
      words them. *)

From Stdlib Require Import ZArith List String Ascii Bool Lia DecimalString.
From Equations Require Import Equations.
Import ListNotations.

Set Warnings "-register-all".
Open Scope string_scope.
Open Scope Z_scope.

(** ** JavaScript values *)

Module JS.

Inductive value : Type :=
| VUndefined
| VNull
| VBool (b : bool)
| VNum (z : Z)
| VStr (s : string)
| VArr (elems : list value)
| VObj (fields : list (string * value))
    (* own enumerable properties, in property enumeration order *)
| VError (name message : string)
    (* an Error instance: [name] from its prototype, [message] stored *)
| VBoxed (prim : value)
    (* the wrapper object that [Object(prim)] builds around a primitive *).

(** A completion record: normal result, or thrown value. *)
Inductive completion (A : Type) : Type :=
| Normal (a : A)
| Throw (e : value).
Arguments Normal {A} a.
Arguments Throw {A} e.

(** [`${z}`] for an integer number. *)
Definition NumberToString (z : Z) : string :=
  NilZero.string_of_int (Z.to_int z).

(** [Error.prototype.toString]. *)
Definition ErrorToString (name message : string) : string :=
  if (name =? "")%string then message
  else if (message =? "")%string then name
  else name ++ ": " ++ message.

Fixpoint assoc {A : Type} (k : string) (l : list (string * A)) : option A :=
  match l with
  | [] => None
  | (k', a) :: rest => if (k =? k')%string then Some a else assoc k rest
  end.

Definition has_own {A : Type} (k : string) (l : list (string * A)) : bool :=
  match assoc k l with
  | Some _ => true
  | None => false
  end.

Definition TypeError (message : string) : value := VError "TypeError" message.

Definition is_TypeError (v : value) : bool :=
  match v with
  | VError name _ => (name =? "TypeError")%string
  | _ => false
  end.

(** [String(v)] returns.  An object is converted through its [toString]
    and then its [valueOf]: with an own [toString], which is no
    function, and a [valueOf] that is no function either or is the
    inherited one, which answers the object itself, the conversion
    fails.  An array prints its elements, so it prints when they do. *)
Fixpoint printable (v : value) : bool :=
  match v with
  | VArr elems => forallb printable elems
  | VObj fields => negb (has_own "toString" fields)
  | VBoxed prim => printable prim
  | _ => true
  end.

(** What [String(v)] returns when it returns.  Array elements that are
    [undefined] or [null] print as nothing. *)
Fixpoint printed (v : value) : string :=
  match v with
  | VUndefined => "undefined"
  | VNull => "null"
  | VBool true => "true"
  | VBool false => "false"
  | VNum z => NumberToString z
  | VStr s => s
  | VArr elems =>
      String.concat ","
        (map (fun e => match e with
                       | VUndefined | VNull => ""
                       | _ => printed e
                       end) elems)
  | VObj _ => "[object Object]"
  | VError name message => ErrorToString name message
  | VBoxed prim => printed prim
  end.

Definition cannot_convert : value :=
  TypeError "Cannot convert object to primitive value".

(** [String(v)], which is also what a template literal does to [v]:
    a string, or the [TypeError] of a failed conversion. *)
Definition ToString (v : value) : completion string :=
  if printable v then Normal (printed v) else Throw cannot_convert.

(** [Boolean(v)]: the falsy values are [undefined], [null], [false], [0]
    and the empty string. *)
Definition ToBoolean (v : value) : bool :=
  match v with
  | VUndefined | VNull => false
  | VBool b => b
  | VNum z => negb (z =? 0)
  | VStr s => negb (s =? "")%string
  | _ => true
  end.

Definition truthy (s : string) : bool := negb (s =? "")%string.

(** [v.key], for the keys the program reads ([message], [url],
    [equation]); none of them is defined on a built-in prototype other
    than [Error.prototype.message], so a value without such an own
    property reads as [undefined].  Reading a property of [undefined] or
    [null] throws. *)
Definition Get (v : value) (key : string) : completion value :=
  match v with
  | VUndefined =>
      Throw (TypeError ("Cannot read properties of undefined (reading '"
                          ++ key ++ "')"))
  | VNull =>
      Throw (TypeError ("Cannot read properties of null (reading '"
                          ++ key ++ "')"))
  | VObj fields =>
      match assoc key fields with
      | Some x => Normal x
      | None => Normal VUndefined
      end
  | VError _ message =>
      if (key =? "message")%string then Normal (VStr message)
      else Normal VUndefined
  | _ => Normal VUndefined
  end.

(** [evaluate(equation).toString()] on the result [v] of [evaluate]: the
    read of [toString] fails on [undefined] and [null]; an own
    [toString] property is no function, so calling it fails; the
    inherited methods print as [String] does, and an array's fails
    where an element does not print. *)
Definition toStringMethod (v : value) : completion value :=
  match v with
  | VUndefined =>
      Throw (TypeError "Cannot read properties of undefined (reading 'toString')")
  | VNull =>
      Throw (TypeError "Cannot read properties of null (reading 'toString')")
  | VObj fields =>
      if has_own "toString" fields
      then Throw (TypeError "evaluate(...).toString is not a function")
      else Normal (VStr (printed v))
  | _ =>
      match ToString v with
      | Normal text => Normal (VStr text)
      | Throw e => Throw e
      end
  end.

Fixpoint indexed {A : Type} (i : Z) (l : list A) : list (string * A) :=
  match l with
  | [] => []
  | a :: rest => (NumberToString i, a) :: indexed (i + 1) rest
  end.

Fixpoint code_units (s : string) : list value :=
  match s with
  | EmptyString => []
  | String c rest => VStr (String c EmptyString) :: code_units rest
  end.

(** [Object.entries(v)] for a value that is not [undefined] or [null]. *)
Definition ObjectEntries (v : value) : list (string * value) :=
  match v with
  | VObj fields => fields
  | VArr elems => indexed 0 elems
  | VStr s | VBoxed (VStr s) => indexed 0 (code_units s)
  | _ => []
  end.

(** *** Strings *)

Definition toUpperCase (c : ascii) : ascii :=
  let n := nat_of_ascii c in
  if ((97 <=? n) && (n <=? 122))%nat then ascii_of_nat (n - 32) else c.

(** [s.split(sep)] for a one-character separator. *)
Fixpoint split (sep : ascii) (s : string) : list string :=
  match s with
  | EmptyString => [EmptyString]
  | String c rest =>
      if Ascii.eqb c sep then EmptyString :: split sep rest
      else match split sep rest with
           | w :: ws => String c w :: ws
           | [] => [String c EmptyString]
           end
  end.

(** [s.slice(0, n)]. *)
Definition slice0 (n : nat) (s : string) : string := substring 0 n s.

(** *** [isNaN] on a string: the StringNumericLiteral grammar *)

Definition is_white (c : ascii) : bool :=
  let n := nat_of_ascii c in
  ((9 <=? n) && (n <=? 13) || (n =? 32))%nat.

Definition is_digit (c : ascii) : bool :=
  let n := nat_of_ascii c in ((48 <=? n) && (n <=? 57))%nat.

Definition is_hex (c : ascii) : bool :=
  let n := nat_of_ascii c in
  (is_digit c || (65 <=? n) && (n <=? 70) || (97 <=? n) && (n <=? 102))%nat.

Definition is_octal (c : ascii) : bool :=
  let n := nat_of_ascii c in ((48 <=? n) && (n <=? 55))%nat.

Definition is_binary (c : ascii) : bool :=
  let n := nat_of_ascii c in ((48 <=? n) && (n <=? 49))%nat.

Fixpoint all_chars (p : ascii -> bool) (s : string) : bool :=
  match s with
  | EmptyString => true
  | String c rest => p c && all_chars p rest
  end.

Definition some_chars (p : ascii -> bool) (s : string) : bool :=
  truthy s && all_chars p s.

Fixpoint drop_while (p : ascii -> bool) (s : string) : string :=
  match s with
  | EmptyString => EmptyString
  | String c rest => if p c then drop_while p rest else s
  end.

Fixpoint rev_string (acc s : string) : string :=
  match s with
  | EmptyString => acc
  | String c rest => rev_string (String c acc) rest
  end.

Definition trim (s : string) : string :=
  rev_string "" (drop_while is_white (rev_string "" (drop_while is_white s))).

(** ExponentPart, optional, up to the end of the literal. *)
Definition exponent_opt (s : string) : bool :=
  match s with
  | EmptyString => true
  | String c rest =>
      if (Ascii.eqb c "e" || Ascii.eqb c "E")%char then
        match rest with
        | String sg digits =>
            if (Ascii.eqb sg "+" || Ascii.eqb sg "-")%char
            then some_chars is_digit digits
            else some_chars is_digit rest
        | EmptyString => false
        end
      else false
  end.

(** StrUnsignedDecimalLiteral. *)
Definition unsigned_decimal (s : string) : bool :=
  if (s =? "Infinity")%string then true
  else
    let after_int := drop_while is_digit s in
    let int_digits := (String.length s - String.length after_int)%nat in
    match after_int with
    | String "." frac =>
        let after_frac := drop_while is_digit frac in
        let frac_digits := (String.length frac - String.length after_frac)%nat in
        (0 <? int_digits + frac_digits)%nat && exponent_opt after_frac
    | _ => (0 <? int_digits)%nat && exponent_opt after_int
    end.

(** StrDecimalLiteral: an optional sign before the unsigned literal. *)
Definition decimal_literal (s : string) : bool :=
  match s with
  | String c rest =>
      if (Ascii.eqb c "+" || Ascii.eqb c "-")%char then unsigned_decimal rest
      else unsigned_decimal s
  | EmptyString => false
  end.

(** NonDecimalIntegerLiteral: [0b], [0o], [0x] and their digits. *)
Definition non_decimal_literal (s : string) : bool :=
  match s with
  | String "0" (String p digits) =>
      if (Ascii.eqb p "x" || Ascii.eqb p "X")%char then some_chars is_hex digits
      else if (Ascii.eqb p "o" || Ascii.eqb p "O")%char then some_chars is_octal digits
      else if (Ascii.eqb p "b" || Ascii.eqb p "B")%char then some_chars is_binary digits
      else false
  | _ => false
  end.

(** [Number(s)] is a number (not [NaN]): white space only, or one
    numeric literal between optional white space. *)
Definition parses_as_number (s : string) : bool :=
  let t := trim s in
  negb (truthy t) || non_decimal_literal t || decimal_literal t.

Definition isNaN (s : string) : bool := negb (parses_as_number s).

End JS.
Import JS.

(** ** Effects: state of the outside world, completions, traces *)

Module Eff.

Inductive event : Type :=
| ConsoleLog (line : string)     (* console.log *)
| ConsoleError (line : string)   (* console.error *)
| Wait (ms : Z)                  (* the timer wait of delay(ms) *)
| Call (callee : string)
    (* call-count spy: the function value bound to [callee] was invoked *).

Definition outcome (S A : Type) : Type := completion A * S * list event.

Definition M (S A : Type) : Type := S -> outcome S A.

Definition ret {S A} (a : A) : M S A := fun s => (Normal a, s, []).

Definition throw {S A} (e : value) : M S A := fun s => (Throw e, s, []).

(** Run [r] after the events [t] already happened. *)
Definition after {S A} (t : list event) (r : outcome S A) : outcome S A :=
  let '(c, s, t') := r in (c, s, (t ++ t')%list).

Definition bind {S A B} (m : M S A) (k : A -> M S B) : M S B :=
  fun s =>
    match m s with
    | (Normal a, s1, t1) => after t1 (k a s1)
    | (Throw e, s1, t1) => (Throw e, s1, t1)
    end.

(** [try { body } catch (e) { handler }]. *)
Definition try_catch {S A} (body : M S A) (handler : value -> M S A) : M S A :=
  fun s =>
    match body s with
    | (Normal a, s1, t1) => (Normal a, s1, t1)
    | (Throw e, s1, t1) => after t1 (handler e s1)
    end.

Definition lift {S A} (c : completion A) : M S A := fun s => (c, s, []).

Definition emit {S} (e : event) : M S unit := fun s => (Normal tt, s, [e]).

Definition console_log {S} (line : string) : M S unit := emit (ConsoleLog line).

Definition console_error {S} (line : string) : M S unit := emit (ConsoleError line).

(** Calling an outside function whose behaviour depends on, and changes,
    the state of the world; the call is recorded under [callee]. *)
Definition invoke {S A} (callee : string) (f : S -> completion A * S) : M S A :=
  fun s => let '(c, s') := f s in (c, s', [Call callee]).

Definition result {S A} (r : outcome S A) : completion A := fst (fst r).
Definition final {S A} (r : outcome S A) : S := snd (fst r).
Definition trace {S A} (r : outcome S A) : list event := snd r.

(** What a trace shows: the calls of [callee] and the waits. *)
Definition calls (callee : string) (t : list event) : nat :=
  List.length (filter (fun e => match e with
                                | Call c => (c =? callee)%string
                                | _ => false
                                end) t).

Fixpoint waits (t : list event) : list Z :=
  match t with
  | [] => []
  | Wait ms :: rest => ms :: waits rest
  | _ :: rest => waits rest
  end.

End Eff.
Import Eff.

Declare Scope js_scope.
Delimit Scope js_scope with js.
Notation "x <- m ;; k" := (bind m (fun x => k))
  (at level 61, m at next level, right associativity) : js_scope.
Notation "m ;; k" := (bind m (fun _ => k))
  (at level 61, right associativity) : js_scope.

(** ** The retry executor *)

Section Retry.

Context {S : Type}.

(** The operation under retry: a zero-argument asynchronous function.
    Each call settles with a result or a rejection and moves the world. *)
Definition operation : Type := S -> completion value * S.

(** [delay(ms)]: a promise resolved by a timer after [ms]. *)
Definition delay (ms : Z) : M S unit := emit (Wait ms).

(** The [catch (err)] block of the loop body. *)
Definition attempt_failed (maxRetries delayMs attempt : Z) (err : value)
  : M S unit :=
  (message <- lift (Get err "message") ;;
   text <- lift (ToString message) ;;
   console_log ("Attempt " ++ NumberToString attempt ++ " failed: " ++ text) ;;
   if attempt <? maxRetries then
     console_log ("Waiting " ++ NumberToString delayMs
                    ++ "ms before next attempt...") ;;
     delay delayMs
   else
     console_log ("All " ++ NumberToString maxRetries ++ " attempts failed."))%js.

(** The [throw new Error(...)] after the loop; [error] is the variable
    declared by [let error;]. *)
Definition all_failed (maxRetries : Z) (error : value) : M S value :=
  (message <- lift (Get error "message") ;;
   text <- lift (ToString message) ;;
   throw (VError "Error" ("Operation failed after " ++ NumberToString maxRetries
                            ++ " attempts: " ++ text)))%js.

(** The [for] loop from [attempt] on, followed by the final throw. *)
Equations? retry_from (fn : operation) (maxRetries delayMs attempt : Z)
  (error : value) (s : S) : outcome S value
  by wf (Z.to_nat (maxRetries + 1 - attempt)) lt :=
  retry_from fn maxRetries delayMs attempt error s
    with Z_le_dec attempt maxRetries := {
    | left _ with invoke "fn" fn s := {
        | (Normal r, s1, t1) := (Normal r, s1, t1)
        | (Throw err, s1, t1)
            with attempt_failed maxRetries delayMs attempt err s1 := {
            | (Normal _, s2, t2) :=
                after (t1 ++ t2)%list
                  (retry_from fn maxRetries delayMs (attempt + 1) err s2)
            | (Throw e, s2, t2) := (Throw e, s2, (t1 ++ t2)%list) } }
    | right _ := all_failed maxRetries error s }.
Proof. lia. Qed.

(** [retryOperation(fn, maxRetries, delayMs = 1000)]; [None] is an
    omitted [delayMs]. *)
Definition retryOperation (fn : operation) (maxRetries : Z)
  (delayMs : option Z) : M S value :=
  let delayMs := match delayMs with Some ms => ms | None => 1000 end in
  retry_from fn maxRetries delayMs 0 VUndefined.

(** The world after [k] calls of the operation, and how the call made
    in that world settles. *)
Definition state_after (fn : operation) (k : nat) (s : S) : S :=
  Nat.iter k (fun s' => snd (fn s')) s.

Definition settles (fn : operation) (k : nat) (s : S) : completion value :=
  fst (fn (state_after fn k s)).

End Retry.

(** What one failed attempt writes and waits for, once [err.message]
    printed as [text]. *)
Definition attempt_lines (maxRetries delayMs attempt : Z) (text : string)
  : list event :=
  ConsoleLog ("Attempt " ++ NumberToString attempt ++ " failed: " ++ text)
  :: (if attempt <? maxRetries
      then [ConsoleLog ("Waiting " ++ NumberToString delayMs
                          ++ "ms before next attempt...");
            Wait delayMs]
      else [ConsoleLog ("All " ++ NumberToString maxRetries
                          ++ " attempts failed.")]).

(** [`${err.message}`]: the message of a thrown value as text, or the
    [TypeError] of reading it or of printing it. *)
Definition message_text (err : value) : completion string :=
  match Get err "message" with
  | Normal m => ToString m
  | Throw e => Throw e
  end.

(** A thrown value whose message reads and prints, and that text. *)
Definition tells (err : value) : bool :=
  match message_text err with
  | Normal _ => true
  | Throw _ => false
  end.

Definition told (err : value) : string :=
  match message_text err with
  | Normal text => text
  | Throw _ => ""
  end.

(** ** The tools and their dispatcher *)

(** A tool call as the model issues it: [name] is [None] when the
    property is absent ([undefined]); [args] is any value. *)
Record ToolCall : Type := { name : option string; args : value }.

(** [toolCall.name] as a value, and the property key it is used as: a
    string or [undefined] always prints. *)
Definition functionName (toolCall : ToolCall) : value :=
  match name toolCall with
  | Some n => VStr n
  | None => VUndefined
  end.

Definition property_key (toolCall : ToolCall) : string :=
  printed (functionName toolCall).

(** The array literal that every envelope site of the source builds:
    [[{ functionResponse: { name, response } }]]. *)
Definition envelope (name : value) (response : list (string * value)) : value :=
  VArr [VObj [("functionResponse",
               VObj [("name", name); ("response", VObj response)])]].

(** The envelope shape: a one-element sequence whose record holds a
    response that has an own [content] property. *)
Definition has_content (v : value) : bool :=
  match v with
  | VArr [VObj record] =>
      match assoc "functionResponse" record with
      | Some (VObj functionResponse) =>
          match assoc "response" functionResponse with
          | Some (VObj response) =>
              match assoc "content" response with
              | Some _ => true
              | None => false
              end
          | _ => false
          end
      | _ => false
      end
  | _ => false
  end.

Definition is_nullish (v : value) : bool :=
  match v with
  | VUndefined | VNull => true
  | _ => false
  end.

Definition is_object (v : value) : bool :=
  match v with
  | VArr _ | VObj _ | VError _ _ | VBoxed _ => true
  | _ => false
  end.

(** The properties every object literal inherits from
    [Object.prototype]: eleven functions, and the accessor [__proto__]. *)
Definition Object_prototype_functions : list string :=
  [ "constructor"; "__defineGetter__"; "__defineSetter__"; "hasOwnProperty";
    "__lookupGetter__"; "__lookupSetter__"; "isPrototypeOf";
    "propertyIsEnumerable"; "toString"; "valueOf"; "toLocaleString" ].

Definition inherited (key : string) : bool :=
  (key =? "__proto__")%string
  || existsb (fun k => (key =? k)%string) Object_prototype_functions.

(** An [Object.prototype] function called as a plain function, so with
    [this] undefined, on [(arg, _)], as ECMAScript specifies each
    (ECMA-262, 20.1.1.1, 20.1.3 and B.2.2): [Object] converts its
    argument to an object, [toString] names the missing receiver,
    [isPrototypeOf] answers [false] to a primitive, and every other one
    fails when it converts its receiver to an object -
    [hasOwnProperty] and [propertyIsEnumerable] after they have
    converted their argument to a property key, which fails first when
    the argument does not print. *)
Definition call_Object_prototype (key : string) (arg : value) : completion value :=
  if (key =? "constructor")%string then
    Normal (match arg with
            | VUndefined | VNull => VObj []
            | VBool _ | VNum _ | VStr _ => VBoxed arg
            | _ => arg
            end)
  else if (key =? "toString")%string then
    Normal (VStr "[object Undefined]")
  else if (key =? "isPrototypeOf")%string && negb (is_object arg) then
    Normal (VBool false)
  else if ((key =? "hasOwnProperty")%string
           || (key =? "propertyIsEnumerable")%string)
          && negb (printable arg) then
    Throw cannot_convert
  else
    Throw (TypeError "Cannot convert undefined or null to object").

Section Tools.

Context {S : Type}.

(** The two outside collaborators: [YoutubeTranscript.fetchTranscript]
    and mathjs's [evaluate].  A result of [evaluate] whose class is not
    one of [value] stands here as the string its [toString] gives. *)
Variable fetchTranscript : value -> S -> completion value * S.
Variable evaluate : value -> S -> completion value * S.

Definition handler : Type := value -> value -> M S value.

Definition getYoutubeTranscript (args name : value) : M S value :=
  (url <- lift (Get args "url") ;;
   try_catch
     (transcript <- invoke "fetchTranscript" (fetchTranscript url) ;;
      ret (envelope name [("url", url); ("content", transcript)]))
     (fun error =>
        text <- lift (ToString error) ;;
        let errorMessage := "Error fetching the transcript: " ++ text in
        console_error errorMessage ;;
        ret (envelope name [("url", url); ("content", VStr errorMessage)])))%js.

Definition calculate (args name : value) : M S value :=
  (equation <- lift (Get args "equation") ;;
   try_catch
     (evaluated <- invoke "evaluate" (evaluate equation) ;;
      result <- lift (toStringMethod evaluated) ;;
      ret (envelope name [("equation", equation); ("content", result)]))
     (fun error =>
        text <- lift (ToString error) ;;
        let errorMessage := "Error calculating the equation: " ++ text in
        console_error errorMessage ;;
        ret (envelope name [("equation", equation); ("content", VStr errorMessage)])))%js.

(** The own properties of the dispatch table. *)
Definition tool_calls_to_function : list (string * handler) :=
  [ ("get_youtube_transcript", getYoutubeTranscript);
    ("calculate", calculate) ].

(** What [tool_calls_to_function[key]] can be. *)
Inductive member : Type :=
| Own (func : handler)            (* a handler of the table *)
| Inherited (key : string)        (* a function of Object.prototype *)
| Prototype                       (* Object.prototype itself, by __proto__ *).

(** Property lookup on the table: its own properties, then its
    prototype chain; [None] is [undefined]. *)
Definition lookup (key : string) : option member :=
  match assoc key tool_calls_to_function with
  | Some func => Some (Own func)
  | None =>
      if (key =? "__proto__")%string then Some Prototype
      else if inherited key then Some (Inherited key)
      else None
  end.

Definition manageToolCall (toolCall : ToolCall) : M S value :=
  let functionName := functionName toolCall in
  let key := property_key toolCall in
  match lookup key with
  | Some (Own func) =>
      (emit (Call key) ;; func (args toolCall) functionName)%js
  | Some (Inherited builtin) =>
      (emit (Call key) ;; lift (call_Object_prototype builtin (args toolCall)))%js
  | Some Prototype =>
      throw (TypeError "func is not a function")
  | None =>
      let errorMessage := "No function found for " ++ printed functionName in
      (console_error errorMessage ;;
       ret (envelope functionName
              [("name", functionName); ("content", VStr errorMessage)]))%js
  end.

End Tools.

(** ** The call summary *)

Definition charAt0 (s : string) : string :=
  match s with
  | String c _ => String c EmptyString
  | EmptyString => EmptyString
  end.

Fixpoint toUpperCaseString (s : string) : string :=
  match s with
  | String c rest => String (toUpperCase c) (toUpperCaseString rest)
  | EmptyString => EmptyString
  end.

Definition slice1 (s : string) : string :=
  match s with
  | String _ rest => rest
  | EmptyString => EmptyString
  end.

Definition formattedName (name : string) : string :=
  String.concat " "
    (map (fun word =>
            if isNaN word then toUpperCaseString (charAt0 word) ++ slice1 word
            else word)
       (split "_" name)).

(** The pure part of the program returns or throws. *)
Definition and_then {A B : Type} (c : completion A) (k : A -> completion B)
  : completion B :=
  match c with
  | Normal a => k a
  | Throw e => Throw e
  end.

(** [l.map(f)] for a callback that may throw: the elements in order, up
    to the first one on which [f] throws. *)
Fixpoint each {A B : Type} (f : A -> completion B) (l : list A)
  : completion (list B) :=
  match l with
  | [] => Normal []
  | a :: rest =>
      and_then (f a) (fun b =>
      and_then (each f rest) (fun bs => Normal (b :: bs)))
  end.

Definition formattedArgs (args : value) : completion string :=
  if ToBoolean args then
    and_then
      (each (fun '(key, value) =>
               and_then (ToString value) (fun stringValue =>
               let truncatedValue :=
                 if (500 <? String.length stringValue)%nat
                 then slice0 500 stringValue ++ "..."
                 else stringValue in
               Normal (key ++ ": " ++ truncatedValue)))
         (ObjectEntries args))
      (fun lines => Normal (String.concat ", " lines))
  else Normal "".

(** The callback of the outer [map]. *)
Definition describe (tc : ToolCall) : completion string :=
  match name tc with
  | None => Normal ""
  | Some n =>
      if truthy n then
        let formattedName := formattedName n in
        and_then (formattedArgs (args tc)) (fun formattedArgs =>
        Normal (if truthy formattedArgs
                then formattedName ++ " (" ++ formattedArgs ++ ")"
                else formattedName))
      else Normal ""
  end.

Definition processFunctionCallsNames (functionCalls : list ToolCall)
  : completion string :=
  and_then (each describe functionCalls) (fun names =>
  Normal (String.concat ", " (filter truthy names))).

(** ** The summary as the specification words it

    A second definition of the summary, written from the specification's
    sentences, to compare with [processFunctionCallsNames]. *)

Module Spec.

(** "capitalizing the first character" of a token. *)
Definition capitalized (token : string) : string :=
  match token with
  | String c rest => String (toUpperCase c) rest
  | EmptyString => EmptyString
  end.

(** "each token that does not parse as a number (numeric tokens
    unchanged)". *)
Definition title (token : string) : string :=
  if parses_as_number token then token else capitalized token.

(** "splitting its name on '_' ... joining tokens with spaces". *)
Definition phrase (name : string) : string :=
  String.concat " " (map title (split "_" name)).

(** "every rendered value longer than 500 characters is truncated to its
    first 500 characters plus an ellipsis marker"; the rendering of a
    value is what it prints as. *)
Definition rendered (v : value) : string :=
  let text := printed v in
  if (String.length text <=? 500)%nat then text
  else substring 0 500 text ++ "...".

(** The arguments a call has: the entries of its [args], none when
    [args] is missing. *)
Definition arguments (tc : ToolCall) : list (string * value) :=
  if ToBoolean (args tc) then ObjectEntries (args tc) else [].

(** "if the call has args, it appends  (key: value, ...)". *)
Definition suffix (entries : list (string * value)) : string :=
  match entries with
  | [] => ""
  | _ => " (" ++ String.concat ", "
                   (map (fun kv => fst kv ++ ": " ++ rendered (snd kv)) entries)
           ++ ")"
  end.

(** A call with a name (a nameless call contributes nothing). *)
Definition named (tc : ToolCall) : bool :=
  match name tc with
  | Some n => negb (n =? "")%string
  | None => false
  end.

Definition call_text (tc : ToolCall) : string :=
  match name tc with
  | Some n => phrase n ++ suffix (arguments tc)
  | None => ""
  end.

(** "per-call strings are joined with  , ". *)
Definition summary (calls : list ToolCall) : string :=
  String.concat ", " (map call_text (filter named calls)).

End Spec.

(** A call the summary can render: it has no name, or every value of
    its arguments prints. *)
Definition renders (tc : ToolCall) : bool :=
  negb (Spec.named tc)
  || forallb (fun kv => printable (snd kv)) (Spec.arguments tc).

(** ** Sample inputs *)

Definition always_boom : @operation unit :=
  fun s => (Throw (VError "Error" "boom"), s).

(** Rejects with [undefined] on every call. *)
Definition always_undefined : @operation unit :=
  fun s => (Throw VUndefined, s).

(** Rejects with [undefined] on its first call, resolves with 1 after. *)
Definition rejects_once : @operation nat :=
  fun n => match n with
           | O => (Throw VUndefined, 1%nat)
           | _ => (Normal (VNum 1), Datatypes.S n)
           end.

Definition no_transcript : value -> unit -> completion value * unit :=
  fun _ s => (Throw (VError "Error" "Transcript is disabled on this video"), s).

Definition two : value -> unit -> completion value * unit :=
  fun _ s => (Normal (VNum 2), s).

(** Fails with [Error("busy")] on its first two calls, resolves with 7
    from the third on. *)
Definition busy_twice : @operation nat :=
  fun n => if (n <? 2)%nat
           then (Throw (VError "Error" "busy"), Datatypes.S n)
           else (Normal (VNum 7), Datatypes.S n).

Definition sum_call : ToolCall :=
  {| name := Some "calculate"; args := VObj [("equation", VStr "1+1")] |}.

Definition bare_call : ToolCall :=
  {| name := Some "calculate"; args := VUndefined |}.

Definition toString_call : ToolCall :=
  {| name := Some "toString"; args := VObj [] |}.

Definition weather_call : ToolCall :=
  {| name := Some "get_weather"; args := VObj [("city", VStr "Oslo")] |}.

Definition transcript_call : ToolCall :=
  {| name := Some "get_youtube_transcript";
     args := VObj [("url", VStr "http://x")] |}.

(** ** Reading envelopes and traces *)

(** The [console.error] lines of a trace, in order. *)
Fixpoint errors (t : list event) : list string :=
  match t with
  | [] => []
  | ConsoleError line :: rest => line :: errors rest
  | _ :: rest => errors rest
  end.

(** [v[0].functionResponse] of a one-element sequence [v]. *)
Definition functionResponse_of (v : value) : option (list (string * value)) :=
  match v with
  | VArr [VObj record] =>
      match assoc "functionResponse" record with
      | Some (VObj functionResponse) => Some functionResponse
      | _ => None
      end
  | _ => None
  end.

(** [v[0].functionResponse.name]. *)
Definition name_of (v : value) : option value :=
  match functionResponse_of v with
  | Some functionResponse => assoc "name" functionResponse
  | None => None
  end.

(** [v[0].functionResponse.response]. *)
Definition response_of (v : value) : option (list (string * value)) :=
  match functionResponse_of v with
  | Some functionResponse =>
      match assoc "response" functionResponse with
      | Some (VObj response) => Some response
      | _ => None
      end
  | None => None
  end.

(** [v[0].functionResponse.response.content]. *)
Definition content_of (v : value) : option value :=
  match response_of v with
  | Some response => assoc "content" response
  | None => None
  end.


(** The error the loop's final [throw] builds from the text of the last
    failure's message. *)
Definition exhausted (maxRetries : Z) (text : string) : value :=
  VError "Error" ("Operation failed after " ++ NumberToString maxRetries
                    ++ " attempts: " ++ text).

(** ** The declarations advertised to the model *)



(** [v.key] when the read succeeds, [undefined] otherwise. *)
Definition field (v : value) (key : string) : value :=
  match Get v key with
  | Normal x => x
  | Throw _ => VUndefined
  end.




(** ** Measuring the summary *)

(** The characters of a string. *)
Definition chars (s : string) : list ascii := list_ascii_of_string s.

(** The callback of the inner [map]: a token with its first character in
    upper case. *)
Definition capitalize (word : string) : string :=
  toUpperCaseString (charAt0 word) ++ slice1 word.

(** What a call can take in the summary, whatever its argument values
    print as: its name, the brackets, and per argument its key, the
    colon and separator, and a value cut at 500 characters. *)
Definition budget (tc : ToolCall) : nat :=
  match name tc with
  | Some n =>
      String.length n + 3
      + list_sum (map (fun kv => String.length (fst kv) + 507)%nat
                    (ObjectEntries (args tc)))
  | None => 0
  end.

(** Joining two summaries. *)
Definition joined (a b : string) : string :=
  if truthy a then (if truthy b then a ++ ", " ++ b else a) else b.

(** The envelope [calculate] gives for [sum_call] when [evaluate]
    answers 2. *)
Definition sum_envelope : value :=
  envelope (VStr "calculate") [("equation", VStr "1+1"); ("content", VStr "2")].

(** Two calls without a usable name. *)
Definition nameless_calls : list ToolCall :=
  [ {| name := None; args := VNull |};
    {| name := Some ""; args := VObj [("q", VStr "x")] |} ].



(** An object whose own [toString] is a string: [String] cannot convert
    it. *)
Definition opaque : value := VObj [("toString", VStr "x")].

(** A named call with such an argument value. *)
Definition opaque_call : ToolCall :=
  {| name := Some "a"; args := VObj [("k", opaque)] |}.

(** A nameless call followed by a named call whose argument is an array
    holding such a value. *)
Definition opaque_calls : list ToolCall :=
  [ {| name := None; args := VNull |};
    {| name := Some "calculate";
       args := VObj [("equation", VArr [VNum 1; opaque])] |} ].

(** ** Strings and traces: lemmas *)

Lemma length_app_string a b :
  String.length (a ++ b) = (String.length a + String.length b)%nat.
Proof. induction a as [| c a IH]; [reflexivity | cbn; rewrite IH; reflexivity]. Qed.

Lemma app_assoc_string a b c : ((a ++ b) ++ c)%string = (a ++ b ++ c)%string.
Proof. induction a as [| x a IH]; [reflexivity | cbn; rewrite IH; reflexivity]. Qed.

Lemma calls_app callee t1 t2 :
  calls callee (t1 ++ t2) = (calls callee t1 + calls callee t2)%nat.
Proof. unfold calls. rewrite filter_app, length_app. reflexivity. Qed.

Lemma waits_app t1 t2 : waits (t1 ++ t2) = (waits t1 ++ waits t2)%list.
Proof.
  induction t1 as [| e t1 IH]; [reflexivity |].
  destruct e; cbn; rewrite IH; reflexivity.
Qed.

(** ** The message of a failure: lemmas *)

Lemma Get_nullish e key :
  is_nullish e = true -> exists x, Get e key = Throw x /\ is_TypeError x = true.
Proof.
  destruct e; try discriminate; intros _; eexists; split; reflexivity.
Qed.

Lemma Get_not_nullish a key :
  is_nullish a = false -> exists v, Get a key = Normal v.
Proof.
  destruct a; cbn; try discriminate; intros _; eauto.
  - destruct (assoc key fields); eauto.
  - destruct (key =? "message")%string; eauto.
Qed.

Lemma Get_throws e key x :
  Get e key = Throw x -> is_TypeError x = true /\ is_nullish e = true.
Proof.
  destruct e; cbn; try discriminate.
  - intros [= <-]. split; reflexivity.
  - intros [= <-]. split; reflexivity.
  - destruct (assoc key fields); discriminate.
  - destruct (key =? "message")%string; discriminate.
Qed.

Lemma ToString_throws v x : ToString v = Throw x -> x = cannot_convert.
Proof. unfold ToString. destruct (printable v); [discriminate | intros [= <-]; reflexivity]. Qed.

Lemma ToString_printable v :
  printable v = true -> ToString v = Normal (printed v).
Proof. intros H. unfold ToString. rewrite H. reflexivity. Qed.

Lemma tells_told e : tells e = true -> message_text e = Normal (told e).
Proof.
  unfold tells, told. destruct (message_text e); [reflexivity | discriminate].
Qed.

Lemma message_text_tells e text :
  message_text e = Normal text -> tells e = true /\ told e = text.
Proof. intros H. unfold tells, told. rewrite H. split; reflexivity. Qed.

Lemma message_text_normal e text :
  message_text e = Normal text -> is_nullish e = false.
Proof. destruct e; try reflexivity; discriminate. Qed.

(** The error of a message that cannot be read or printed is a
    [TypeError] of the engine, never the failure itself. *)
Lemma message_text_throws e x :
  message_text e = Throw x -> is_TypeError x = true /\ x <> e.
Proof.
  unfold message_text. destruct (Get e "message") as [m | y] eqn:Hget.
  - intros Hm. apply ToString_throws in Hm as Hx. subst x.
    split; [reflexivity |]. intros <-. cbn in Hget. injection Hget as <-.
    discriminate.
  - intros [= <-]. destruct (Get_throws e "message" y Hget) as [Hty Hnull].
    split; [exact Hty |]. intros <-. destruct y; discriminate.
Qed.

(** The error built after the loop is never the last failure itself. *)
Lemma exhausted_fresh N e text :
  message_text e = Normal text -> exhausted N text <> e.
Proof.
  intros Hm Heq. subst e.
  change (Normal ("Operation failed after " ++ NumberToString N
                    ++ " attempts: " ++ text) = Normal text) in Hm.
  apply (f_equal (fun c => match c with
                           | Normal t => String.length t
                           | Throw _ => 0%nat
                           end)) in Hm.
  cbv beta iota in Hm. rewrite !length_app_string in Hm.
  cbn [String.length] in Hm. lia.
Qed.

(** ** The retry loop: lemmas *)

Section RetryFacts.

Context {S : Type}.
Implicit Types (fn : @operation S) (s : S).

Lemma result_after {A} (t : list event) (r : outcome S A) :
  result (after t r) = result r.
Proof. destruct r as [[c s'] t']. reflexivity. Qed.

Lemma final_after {A} (t : list event) (r : outcome S A) :
  final (after t r) = final r.
Proof. destruct r as [[c s'] t']. reflexivity. Qed.

Lemma trace_after {A} (t : list event) (r : outcome S A) :
  trace (after t r) = (t ++ trace r)%list.
Proof. destruct r as [[c s'] t']. reflexivity. Qed.

Lemma retry_from_step fn N d a err s :
  retry_from fn N d a err s =
  if a <=? N then
    match fn s with
    | (Normal r, s1) => (Normal r, s1, [Call "fn"])
    | (Throw e, s1) =>
        match attempt_failed N d a e s1 with
        | (Normal _, s2, t2) =>
            after (Call "fn" :: t2) (retry_from fn N d (a + 1) e s2)
        | (Throw e', s2, t2) => (Throw e', s2, Call "fn" :: t2)
        end
    end
  else all_failed N err s.
Proof.
  rewrite retry_from_equation_1.
  destruct (Z_le_dec a N) as [Hle | Hgt].
  - rewrite (proj2 (Z.leb_le a N) Hle).
    unfold retry_from_unfold_clause_1, invoke.
    destruct (fn s) as [[r | e] s1]; [reflexivity |].
    unfold retry_from_unfold_clause_1_clause_1.
    destruct (attempt_failed N d a e s1) as [[[u | e'] s2] t2]; reflexivity.
  - rewrite (proj2 (Z.leb_gt a N)) by lia. reflexivity.
Qed.

Lemma attempt_failed_spec N d a e s :
  attempt_failed N d a e s =
  match message_text e with
  | Normal text => (Normal tt, s, attempt_lines N d a text)
  | Throw x => (Throw x, s, [])
  end.
Proof.
  unfold attempt_failed, message_text, attempt_lines, bind, lift, console_log,
    delay, emit.
  destruct (Get e "message") as [m | x]; [| reflexivity].
  destruct (ToString m) as [text | x]; [| reflexivity].
  cbn. destruct (a <? N); reflexivity.
Qed.

Lemma all_failed_spec N e s :
  all_failed N e s =
  match message_text e with
  | Normal text => (Throw (exhausted N text), s, [])
  | Throw x => (Throw x, s, [])
  end.
Proof.
  unfold all_failed, message_text, exhausted, bind, lift, throw.
  destruct (Get e "message") as [m | x]; [| reflexivity].
  destruct (ToString m); reflexivity.
Qed.

Lemma state_after_succ fn k s :
  state_after fn (Datatypes.S k) s = state_after fn k (snd (fn s)).
Proof. unfold state_after. apply Nat.iter_succ_r. Qed.

Lemma settles_succ fn k s :
  settles fn (Datatypes.S k) s = settles fn k (snd (fn s)).
Proof. unfold settles. rewrite state_after_succ. reflexivity. Qed.

Lemma waits_attempt_lines N d a m :
  waits (attempt_lines N d a m) = if a <? N then [d] else [].
Proof. unfold attempt_lines. destruct (a <? N); reflexivity. Qed.

Lemma calls_attempt_lines N d a m : calls "fn" (attempt_lines N d a m) = 0%nat.
Proof. unfold attempt_lines. destruct (a <? N); reflexivity. Qed.


Lemma trace_step_calls N d a text t :
  calls "fn" (Call "fn" :: attempt_lines N d a text ++ t)
  = Datatypes.S (calls "fn" t).
Proof.
  change (Call "fn" :: attempt_lines N d a text ++ t)%list
    with ([Call "fn"] ++ attempt_lines N d a text ++ t)%list.
  rewrite !calls_app, calls_attempt_lines. reflexivity.
Qed.

Lemma trace_step_waits N d a text t :
  waits (Call "fn" :: attempt_lines N d a text ++ t)
  = ((if a <? N then [d] else []) ++ waits t)%list.
Proof.
  change (Call "fn" :: attempt_lines N d a text ++ t)%list
    with ([Call "fn"] ++ attempt_lines N d a text ++ t)%list.
  rewrite !waits_app, waits_attempt_lines. reflexivity.
Qed.

(** A success at the [k]-th call from here, after failures whose
    messages read and print, ends the loop with that result. *)
Lemma retry_from_first_success fn N d r :
  forall (k : nat) a err s,
    a + Z.of_nat k <= N ->
    (forall i, (i < k)%nat ->
       exists e, settles fn i s = Throw e /\ tells e = true) ->
    settles fn k s = Normal r ->
    let out := retry_from fn N d a err s in
    result out = Normal r
    /\ final out = state_after fn (Datatypes.S k) s
    /\ calls "fn" (trace out) = Datatypes.S k
    /\ waits (trace out) = repeat d k.
Proof.
  induction k as [| k IH]; intros a err s Hle Hfail Hok out; subst out.
  - rewrite retry_from_step, (proj2 (Z.leb_le a N)) by lia.
    unfold settles in Hok. cbn in Hok.
    destruct (fn s) as [[r' | e] s1] eqn:Hfn; cbn in Hok; [| discriminate].
    injection Hok as ->.
    cbn. rewrite Hfn. repeat split; reflexivity.
  - rewrite retry_from_step, (proj2 (Z.leb_le a N)) by lia.
    destruct (Hfail 0%nat) as [e [He Hread]]; [lia |].
    unfold settles in He. cbn in He.
    destruct (fn s) as [[r' | e'] s1] eqn:Hfn; cbn in He; [discriminate |].
    injection He as ->.
    rewrite attempt_failed_spec, (tells_told _ Hread).
    assert (Hnext : snd (fn s) = s1) by (rewrite Hfn; reflexivity).
    destruct (IH (a + 1) e s1) as [Hr [Hf [Hc Hw]]].
    + lia.
    + intros i Hi. rewrite <- Hnext, <- settles_succ. apply Hfail. lia.
    + rewrite <- Hnext, <- settles_succ. exact Hok.
    + rewrite result_after, final_after, trace_after.
      rewrite (state_after_succ fn (Datatypes.S k)), Hnext.
      cbn [app]. rewrite trace_step_calls, trace_step_waits, Hc, Hw.
      rewrite (proj2 (Z.ltb_lt a N)) by lia.
      repeat split; assumption.
Qed.

(** Failures whose messages read and print, on every call: the loop
    makes [n + 1] calls from an attempt index [n] short of [maxRetries],
    waits [n] times, and throws the error that quotes [maxRetries]. *)
Lemma retry_from_all_fail fn N d :
  forall (n : nat) a err s,
    a + Z.of_nat n = N ->
    (forall i, (i <= n)%nat ->
       exists e, settles fn i s = Throw e /\ tells e = true) ->
    exists last,
      settles fn n s = Throw last
      /\ let out := retry_from fn N d a err s in
         result out = Throw (exhausted N (told last))
         /\ final out = state_after fn (Datatypes.S n) s
         /\ calls "fn" (trace out) = Datatypes.S n
         /\ waits (trace out) = repeat d n.
Proof.
  induction n as [| n IH]; intros a err s Hle Hfail.
  - destruct (Hfail 0%nat) as [e [He Hread]]; [lia |].
    exists e. split; [exact He |]. cbv zeta.
    rewrite retry_from_step, (proj2 (Z.leb_le a N)) by lia.
    unfold settles in He. cbn in He.
    destruct (fn s) as [[r' | e'] s1] eqn:Hfn; cbn in He; [discriminate |].
    injection He as ->.
    rewrite attempt_failed_spec, (tells_told _ Hread).
    rewrite retry_from_step, (proj2 (Z.leb_gt (a + 1) N)) by lia.
    rewrite all_failed_spec, (tells_told _ Hread).
    rewrite result_after, final_after, trace_after.
    unfold result, final, trace; cbn [fst snd].
    rewrite state_after_succ, Hfn. cbn [app].
    rewrite trace_step_calls, trace_step_waits.
    rewrite (proj2 (Z.ltb_ge a N)) by lia.
    repeat split.
  - destruct (Hfail 0%nat) as [e [He Hread]]; [lia |].
    unfold settles in He. cbn in He.
    destruct (fn s) as [[r' | e'] s1] eqn:Hfn; cbn in He; [discriminate |].
    injection He as ->.
    assert (Hnext : snd (fn s) = s1) by (rewrite Hfn; reflexivity).
    destruct (IH (a + 1) e s1) as [last [Hlast [Hr [Hf [Hc Hw]]]]].
    + lia.
    + intros i Hi. rewrite <- Hnext, <- settles_succ. apply Hfail. lia.
    + exists last. split; [rewrite settles_succ, Hnext; exact Hlast |].
      cbv zeta in *.
      rewrite retry_from_step, (proj2 (Z.leb_le a N)) by lia.
      rewrite Hfn, attempt_failed_spec, (tells_told _ Hread).
      rewrite result_after, final_after, trace_after.
      rewrite (state_after_succ fn (Datatypes.S n)), Hnext.
      cbn [app]. rewrite trace_step_calls, trace_step_waits, Hc, Hw.
      rewrite (proj2 (Z.ltb_lt a N)) by lia.
      repeat split; assumption.
Qed.

(** The loop from [attempt]: at most one call per remaining index, one
    wait fewer than calls, every wait of [delayMs], and the world moved
    once per call. *)
Lemma retry_from_calls fn N d :
  forall (n : nat) a err s,
    Z.to_nat (N + 1 - a) = n ->
    let out := retry_from fn N d a err s in
    (calls "fn" (trace out) <= n)%nat
    /\ (a <= N -> (1 <= calls "fn" (trace out))%nat)
    /\ waits (trace out) = repeat d (Nat.pred (calls "fn" (trace out)))
    /\ final out = state_after fn (calls "fn" (trace out)) s.
Proof.
  induction n as [| n IH]; intros a err s Hn out; subst out.
  - rewrite retry_from_step, (proj2 (Z.leb_gt a N)) by lia.
    rewrite all_failed_spec.
    destruct (message_text err); cbn; repeat split; lia.
  - rewrite retry_from_step, (proj2 (Z.leb_le a N)) by lia.
    destruct (fn s) as [[r | e] s1] eqn:Hfn.
    + cbn. rewrite Hfn. repeat split; lia.
    + assert (Hnext : snd (fn s) = s1) by (rewrite Hfn; reflexivity).
      rewrite attempt_failed_spec.
      destruct (message_text e) as [text | x].
      * destruct (IH (a + 1) e s1) as [Hc [Hpos [Hw Hf]]]; [lia |].
        rewrite final_after, trace_after. cbn [app].
        rewrite trace_step_calls, trace_step_waits, Hw, Hf.
        cbn [Nat.pred].
        rewrite state_after_succ, Hnext.
        split; [lia |]. split; [lia |]. split; [| reflexivity].
        destruct (Z.ltb_spec a N) as [Hlt | Hge].
        -- specialize (Hpos ltac:(lia)).
           destruct (calls "fn" (trace (retry_from fn N d (a + 1) e s1)));
             [lia | reflexivity].
        -- assert (calls "fn" (trace (retry_from fn N d (a + 1) e s1)) = 0%nat)
             as -> by lia.
           reflexivity.
      * cbn. rewrite Hfn. repeat split; lia.
Qed.

(** A returned value is the result of the first call that succeeded. *)
Lemma retry_from_returned fn N d r :
  forall (n : nat) a err s,
    Z.to_nat (N + 1 - a) = n ->
    result (retry_from fn N d a err s) = Normal r ->
    exists k : nat,
      a + Z.of_nat k <= N
      /\ settles fn k s = Normal r
      /\ (forall i, (i < k)%nat ->
            exists e, settles fn i s = Throw e /\ is_nullish e = false)
      /\ calls "fn" (trace (retry_from fn N d a err s)) = Datatypes.S k.
Proof.
  induction n as [| n IH]; intros a err s Hn Hres.
  - rewrite retry_from_step, (proj2 (Z.leb_gt a N)) in Hres by lia.
    rewrite all_failed_spec in Hres.
    destruct (message_text err); discriminate.
  - rewrite retry_from_step, (proj2 (Z.leb_le a N)) in * by lia.
    destruct (fn s) as [[r' | e] s1] eqn:Hfn.
    + injection Hres as ->. exists 0%nat.
      unfold settles. cbn. rewrite Hfn.
      repeat split; [lia | intros i Hi; lia].
    + assert (Hnext : snd (fn s) = s1) by (rewrite Hfn; reflexivity).
      rewrite attempt_failed_spec in *.
      destruct (message_text e) as [text | x] eqn:Hget; [| discriminate].
      rewrite result_after in Hres.
      destruct (IH (a + 1) e s1 ltac:(lia) Hres) as [k [Hk [Hok [Hbefore Hc]]]].
      exists (Datatypes.S k).
      rewrite settles_succ, Hnext, trace_after. cbn [app].
      rewrite trace_step_calls, Hc.
      repeat split; [lia | exact Hok |].
      intros [| i] Hi.
      * exists e. unfold settles. cbn. rewrite Hfn. split; [reflexivity |].
        exact (message_text_normal e text Hget).
      * rewrite settles_succ, Hnext. apply Hbefore. lia.
Qed.

(** A thrown value comes from the last call made: it is the error of
    reading or printing that failure's message, or, when that call was
    the last one allowed, the error built from the message's text. *)
Lemma retry_from_thrown fn N d thrown :
  forall (n : nat) a err s,
    Z.to_nat (N + 1 - a) = Datatypes.S n ->
    result (retry_from fn N d a err s) = Throw thrown ->
    exists (k : nat) (e : value),
      (k <= n)%nat
      /\ calls "fn" (trace (retry_from fn N d a err s)) = Datatypes.S k
      /\ settles fn k s = Throw e
      /\ (message_text e = Throw thrown
          \/ (k = n
              /\ exists text,
                   message_text e = Normal text /\ thrown = exhausted N text)).
Proof.
  induction n as [| n IH]; intros a err s Hn Hres.
  - rewrite retry_from_step, (proj2 (Z.leb_le a N)) in * by lia.
    destruct (fn s) as [[r | e] s1] eqn:Hfn; [discriminate |].
    exists 0%nat, e.
    assert (Hsettles : settles fn 0 s = Throw e)
      by (unfold settles, state_after, Nat.iter; cbn [nat_rect]; rewrite Hfn;
          reflexivity).
    rewrite attempt_failed_spec in *.
    destruct (message_text e) as [text | x] eqn:Hget.
    + rewrite result_after in Hres. rewrite trace_after. cbn [app].
      rewrite retry_from_step, (proj2 (Z.leb_gt (a + 1) N)) in * by lia.
      rewrite all_failed_spec, Hget in *.
      injection Hres as <-. rewrite trace_step_calls.
      repeat split; [lia | exact Hsettles |]. right. split; [reflexivity |].
      exists text. split; reflexivity.
    + injection Hres as <-.
      repeat split; [lia | exact Hsettles |]. left. reflexivity.
  - rewrite retry_from_step, (proj2 (Z.leb_le a N)) in * by lia.
    destruct (fn s) as [[r | e] s1] eqn:Hfn; [discriminate |].
    assert (Hnext : snd (fn s) = s1) by (rewrite Hfn; reflexivity).
    rewrite attempt_failed_spec in *.
    destruct (message_text e) as [text | x] eqn:Hget.
    + rewrite result_after in Hres.
      destruct (IH (a + 1) e s1 ltac:(lia) Hres)
        as [k [last [Hk [Hc [Hlast Hwhy]]]]].
      exists (Datatypes.S k), last.
      rewrite settles_succ, Hnext, trace_after. cbn [app].
      rewrite trace_step_calls, Hc.
      repeat split; [lia | exact Hlast |].
      destruct Hwhy as [Hthrows | [-> Hbuilt]]; [left; exact Hthrows |].
      right. split; [reflexivity | exact Hbuilt].
    + injection Hres as <-. exists 0%nat, e.
      repeat split; [lia | |].
      * unfold settles, state_after, Nat.iter. cbn [nat_rect]. rewrite Hfn.
        reflexivity.
      * left. exact Hget.
Qed.

End RetryFacts.

(** ** The handlers and the lookup: lemmas *)

Section ToolFacts.

Context {S : Type}.
Variable fetchTranscript : value -> S -> completion value * S.
Variable evaluate : value -> S -> completion value * S.

Lemma lookup_own key func :
  assoc key (tool_calls_to_function fetchTranscript evaluate) = Some func ->
  lookup fetchTranscript evaluate key = Some (Own func).
Proof. unfold lookup. intros ->. reflexivity. Qed.

Lemma lookup_unresolved key :
  key <> "get_youtube_transcript" -> key <> "calculate" ->
  inherited key = false ->
  lookup fetchTranscript evaluate key = None.
Proof.
  intros H1 H2 Hinh. unfold lookup, tool_calls_to_function, assoc.
  apply String.eqb_neq in H1, H2. rewrite H1, H2, Hinh.
  unfold inherited in Hinh. apply orb_false_iff in Hinh as [-> _].
  reflexivity.
Qed.

(** A name that is neither an own key of the table nor a property of
    [Object.prototype] gets the error envelope; the world is untouched
    and the trace holds the diagnostic line alone, so nothing was
    called. *)
Lemma manageToolCall_unresolved tc s :
  property_key tc <> "get_youtube_transcript" ->
  property_key tc <> "calculate" ->
  inherited (property_key tc) = false ->
  manageToolCall fetchTranscript evaluate tc s =
  (Normal (envelope (functionName tc)
             [("name", functionName tc);
              ("content", VStr ("No function found for " ++ property_key tc))]),
   s,
   [ConsoleError ("No function found for " ++ property_key tc)]).
Proof.
  intros H1 H2 Hinh. unfold manageToolCall.
  rewrite (lookup_unresolved _ H1 H2 Hinh). reflexivity.
Qed.

Lemma getYoutubeTranscript_nullish a n s :
  is_nullish a = true ->
  exists e, getYoutubeTranscript fetchTranscript a n s = (Throw e, s, [])
            /\ is_TypeError e = true.
Proof.
  intros Hn. destruct (Get_nullish a "url" Hn) as [e [He Ht]].
  exists e. split; [| exact Ht].
  unfold getYoutubeTranscript, bind, lift. rewrite He. reflexivity.
Qed.

Lemma calculate_nullish a n s :
  is_nullish a = true ->
  exists e, calculate evaluate a n s = (Throw e, s, [])
            /\ is_TypeError e = true.
Proof.
  intros Hn. destruct (Get_nullish a "equation" Hn) as [e [He Ht]].
  exists e. split; [| exact Ht].
  unfold calculate, bind, lift. rewrite He. reflexivity.
Qed.

Lemma dispatch_own tc key func s :
  property_key tc = key ->
  assoc key (tool_calls_to_function fetchTranscript evaluate) = Some func ->
  manageToolCall fetchTranscript evaluate tc s = after [Call key] (func (args tc) (functionName tc) s).
Proof.
  intros Hk Hf. unfold manageToolCall. rewrite Hk, (lookup_own _ _ Hf).
  unfold bind, emit. reflexivity.
Qed.

Lemma getYoutubeTranscript_runs a n s url :
  Get a "url" = Normal url ->
  getYoutubeTranscript fetchTranscript a n s =
  match fetchTranscript url s with
  | (Normal transcript, s1) =>
      (Normal (envelope n [("url", url); ("content", transcript)]), s1,
       [Call "fetchTranscript"])
  | (Throw error, s1) =>
      match ToString error with
      | Normal text =>
          (Normal (envelope n
                     [("url", url);
                      ("content",
                       VStr ("Error fetching the transcript: " ++ text))]),
           s1,
           [Call "fetchTranscript";
            ConsoleError ("Error fetching the transcript: " ++ text)])
      | Throw x => (Throw x, s1, [Call "fetchTranscript"])
      end
  end.
Proof.
  intros Hget. unfold getYoutubeTranscript, bind, lift, try_catch, invoke.
  rewrite Hget. destruct (fetchTranscript url s) as [[transcript | error] s1];
    [reflexivity |].
  unfold after. cbn [app]. destruct (ToString error); reflexivity.
Qed.

Lemma calculate_runs a n s equation :
  Get a "equation" = Normal equation ->
  calculate evaluate a n s =
  let caught error s1 :=
    match ToString error with
    | Normal text =>
        (Normal (envelope n
                   [("equation", equation);
                    ("content",
                     VStr ("Error calculating the equation: " ++ text))]),
         s1,
         [Call "evaluate";
          ConsoleError ("Error calculating the equation: " ++ text)])
    | Throw x => (Throw x, s1, [Call "evaluate"])
    end in
  match evaluate equation s with
  | (Normal evaluated, s1) =>
      match toStringMethod evaluated with
      | Normal text =>
          (Normal (envelope n [("equation", equation); ("content", text)]), s1,
           [Call "evaluate"])
      | Throw error => caught error s1
      end
  | (Throw error, s1) => caught error s1
  end.
Proof.
  intros Hget. unfold calculate, bind, lift, try_catch, invoke.
  rewrite Hget. cbv zeta.
  destruct (evaluate equation s) as [[evaluated | error] s1].
  - destruct (toStringMethod evaluated) as [text | error]; [reflexivity |].
    unfold after. cbn [app]. destruct (ToString error); reflexivity.
  - unfold after. cbn [app]. destruct (ToString error); reflexivity.
Qed.


(** The three ways a call is resolved. *)
Lemma dispatch_cases tc :
  property_key tc = "get_youtube_transcript"
  \/ property_key tc = "calculate"
  \/ (property_key tc <> "get_youtube_transcript"
      /\ property_key tc <> "calculate").
Proof.
  destruct (String.eqb_spec (property_key tc) "get_youtube_transcript");
    [left; assumption |].
  destruct (String.eqb_spec (property_key tc) "calculate");
    [right; left; assumption | right; right; split; assumption].
Qed.

Lemma dispatch_transcript tc s :
  property_key tc = "get_youtube_transcript" ->
  manageToolCall fetchTranscript evaluate tc s
  = after [Call "get_youtube_transcript"]
      (getYoutubeTranscript fetchTranscript (args tc) (functionName tc) s).
Proof.
  intros Hk. exact (dispatch_own tc _ _ s Hk eq_refl).
Qed.

Lemma dispatch_calculate tc s :
  property_key tc = "calculate" ->
  manageToolCall fetchTranscript evaluate tc s
  = after [Call "calculate"]
      (calculate evaluate (args tc) (functionName tc) s).
Proof.
  intros Hk. exact (dispatch_own tc _ _ s Hk eq_refl).
Qed.

Lemma Get_cases a key :
  (exists x, Get a key = Normal x /\ is_nullish a = false)
  \/ (exists e, Get a key = Throw e /\ is_nullish a = true).
Proof.
  destruct (is_nullish a) eqn:Hn.
  - right. destruct (Get_nullish a key Hn) as [e [He _]]. eauto.
  - left. destruct (Get_not_nullish a key Hn) as [x Hx]. eauto.
Qed.

Lemma getYoutubeTranscript_throws a n s e :
  Get a "url" = Throw e ->
  getYoutubeTranscript fetchTranscript a n s = (Throw e, s, []).
Proof.
  intros Hget. unfold getYoutubeTranscript, bind, lift. rewrite Hget. reflexivity.
Qed.

Lemma calculate_throws a n s e :
  Get a "equation" = Throw e ->
  calculate evaluate a n s = (Throw e, s, []).
Proof.
  intros Hget. unfold calculate, bind, lift. rewrite Hget. reflexivity.
Qed.

Lemma lookup_inherited key :
  key <> "get_youtube_transcript" -> key <> "calculate" ->
  inherited key = true ->
  lookup fetchTranscript evaluate key = Some Prototype
  \/ lookup fetchTranscript evaluate key = Some (Inherited key).
Proof.
  intros H1 H2 Hinh. unfold lookup, tool_calls_to_function, assoc.
  apply String.eqb_neq in H1, H2. rewrite H1, H2, Hinh.
  destruct (key =? "__proto__")%string; [left | right]; reflexivity.
Qed.

Lemma inherited_not_external key :
  inherited key = true ->
  (key =? "fetchTranscript")%string = false
  /\ (key =? "evaluate")%string = false.
Proof.
  intros Hinh. split; apply String.eqb_neq; intros ->; discriminate.
Qed.

Lemma field_Get a key x : Get a key = Normal x -> field a key = x.
Proof. intros H. unfold field. rewrite H. reflexivity. Qed.

(** Split a dispatch on how the name resolves and how the handler's
    argument read, its outside call and its catch block end. *)
Ltac dispatch_split tc s :=
  let Hk := fresh "Hk" in
  let Hk' := fresh "Hk" in
  let Hget := fresh "Hget" in
  let Hnull := fresh "Hnull" in
  destruct (dispatch_cases tc) as [Hk | [Hk | [Hk Hk']]];
  [ rewrite (dispatch_transcript tc s Hk) in *;
    destruct (Get_cases (args tc) "url") as [[?url [Hget Hnull]] | [?e [Hget Hnull]]];
    [ rewrite (getYoutubeTranscript_runs _ (functionName tc) s _ Hget) in *;
      destruct (fetchTranscript url s) as [[?transcript | ?error] ?s1] eqn:?Hcall;
      [ | destruct (ToString error) as [?text | ?x] eqn:?Hprint ]
    | rewrite (getYoutubeTranscript_throws _ (functionName tc) s _ Hget) in * ]
  | rewrite (dispatch_calculate tc s Hk) in *;
    destruct (Get_cases (args tc) "equation")
      as [[?equation [Hget Hnull]] | [?e [Hget Hnull]]];
    [ rewrite (calculate_runs _ (functionName tc) s _ Hget) in *; cbv zeta in *;
      destruct (evaluate equation s) as [[?evaluated | ?error] ?s1] eqn:?Hcall;
      [ destruct (toStringMethod evaluated) as [?text | ?error] eqn:?Htext;
        [ | destruct (ToString error) as [?text | ?x] eqn:?Hprint ]
      | destruct (ToString error) as [?text | ?x] eqn:?Hprint ]
    | rewrite (calculate_throws _ (functionName tc) s _ Hget) in * ]
  | ].


(** ** The dispatcher: results *)

Lemma registered_own n :
  n = "get_youtube_transcript" \/ n = "calculate" ->
  exists func, assoc n (tool_calls_to_function fetchTranscript evaluate) = Some func.
Proof. intros [-> | ->]; eexists; reflexivity. Qed.

(** C1. Evaluated on the call [{ name: "toString", args: {} }]: the
    name is no key of the table, yet the lookup finds the [toString]
    that the table inherits from [Object.prototype]; the dispatcher
    calls it and returns its string, and builds no
    "No function found" envelope. *)
Theorem manageToolCall_inherited_name :
  forall s : S,
    manageToolCall fetchTranscript evaluate toString_call s
    = (Normal (VStr "[object Undefined]"), s, [Call "toString"]).
Proof. intros s. reflexivity. Qed.

(** C2. For a call whose name is one of the two registered names, the
    dispatcher calls the handler the table holds for that name on
    [(toolCall.args, toolCall.name)] and ends as that handler ends: the same
    completion - the envelope it returns, or the failure it throws - and
    the same world; its trace is the handler's, after the record of the
    call. *)
Theorem manageToolCall_registered :
  forall (tc : ToolCall) (n : string) (s : S),
    name tc = Some n ->
    n = "get_youtube_transcript" \/ n = "calculate" ->
    exists func,
      assoc n (tool_calls_to_function fetchTranscript evaluate) = Some func
      /\ result (manageToolCall fetchTranscript evaluate tc s)
         = result (func (args tc) (VStr n) s)
      /\ final (manageToolCall fetchTranscript evaluate tc s)
         = final (func (args tc) (VStr n) s)
      /\ trace (manageToolCall fetchTranscript evaluate tc s)
         = Call n :: trace (func (args tc) (VStr n) s).
Proof.
  intros tc n s Hname Hreg.
  destruct (registered_own n Hreg) as [func Hfunc].
  exists func. split; [exact Hfunc |].
  assert (Hkey : property_key tc = n)
    by (unfold property_key, functionName; rewrite Hname; reflexivity).
  assert (Hfn : functionName tc = VStr n)
    by (unfold functionName; rewrite Hname; reflexivity).
  rewrite (dispatch_own tc n func s Hkey Hfunc), Hfn.
  rewrite result_after, final_after, trace_after. repeat split.
Qed.

(** C6. Evaluated on the call [{ name: "toString", args: {} }]: what
    [manageToolCall] returns there is no envelope.  It is the string
    that the inherited [toString] answers: no one-element sequence, no
    response, no [content]. *)
Theorem manageToolCall_returns_no_envelope :
  forall s : S,
    exists v,
      result (manageToolCall fetchTranscript evaluate toString_call s) = Normal v
      /\ has_content v = false
      /\ response_of v = None
      /\ content_of v = None.
Proof. intros s. exists (VStr "[object Undefined]"). repeat split. Qed.

(** C9. Both handlers read their argument field before their [try]:
    on [args] that are [undefined] or [null], [getYoutubeTranscript] and
    [calculate] throw a [TypeError] with nothing fetched, evaluated or
    written - the catch block never runs.  So a call with a registered
    name and such [args] makes [manageToolCall] throw that error, the
    call of the handler being all that happened, instead of returning an
    envelope. *)
Theorem handlers_read_args_outside_try :
  (forall (a n : value) (s : S),
     is_nullish a = true ->
     exists e, getYoutubeTranscript fetchTranscript a n s = (Throw e, s, [])
               /\ is_TypeError e = true)
  /\ (forall (a n : value) (s : S),
        is_nullish a = true ->
        exists e, calculate evaluate a n s = (Throw e, s, [])
                  /\ is_TypeError e = true)
  /\ (forall (tc : ToolCall) (n : string) (s : S),
        name tc = Some n ->
        n = "get_youtube_transcript" \/ n = "calculate" ->
        is_nullish (args tc) = true ->
        exists e,
          manageToolCall fetchTranscript evaluate tc s = (Throw e, s, [Call n])
          /\ is_TypeError e = true).
Proof.
  split; [exact getYoutubeTranscript_nullish |].
  split; [exact calculate_nullish |].
  intros tc n s Hname Hreg Hnull.
  assert (Hkey : property_key tc = n)
    by (unfold property_key, functionName; rewrite Hname; reflexivity).
  destruct Hreg as [-> | ->].
  - destruct (getYoutubeTranscript_nullish
                (args tc) (functionName tc) s Hnull) as [e [He Ht]].
    exists e. split; [| exact Ht].
    rewrite (dispatch_own tc _ _ s Hkey eq_refl), He.
    reflexivity.
  - destruct (calculate_nullish
                (args tc) (functionName tc) s Hnull) as [e [He Ht]].
    exists e. split; [| exact Ht].
    rewrite (dispatch_own tc _ _ s Hkey eq_refl), He.
    reflexivity.
Qed.

(** The general form of an unresolved name.  A name that is neither
    registered nor a property inherited from [Object.prototype] gets the
    one-element envelope
    whose [content] is "No function found for " followed by the name and
    whose two [name] fields echo the call's name; the world is untouched
    and the diagnostic line is all that was written, so no handler was
    called. *)
Theorem manageToolCall_unknown_name :
  forall (tc : ToolCall) (s : S),
    property_key tc <> "get_youtube_transcript" ->
    property_key tc <> "calculate" ->
    inherited (property_key tc) = false ->
    manageToolCall fetchTranscript evaluate tc s
    = (Normal
         (VArr [VObj [("functionResponse",
                       VObj [("name", functionName tc);
                             ("response",
                              VObj [("name", functionName tc);
                                    ("content",
                                     VStr ("No function found for "
                                             ++ property_key tc))])])]]),
       s,
       [ConsoleError ("No function found for " ++ property_key tc)]).
Proof.
  intros tc s H1 H2 Hinh.
  exact (manageToolCall_unresolved tc s H1 H2 Hinh).
Qed.

(** ** The dispatcher: envelopes and outside calls *)


(** What the dispatcher writes to [console.error] is what it returns:
    when it returns an envelope it has written nothing, or one line, and
    that line is the envelope's [content]. *)
Theorem manageToolCall_logs_its_content :
  forall (tc : ToolCall) (s : S) (v : value),
    inherited (property_key tc) = false ->
    result (manageToolCall fetchTranscript evaluate tc s) = Normal v ->
    errors (trace (manageToolCall fetchTranscript evaluate tc s)) = []
    \/ exists text,
         errors (trace (manageToolCall fetchTranscript evaluate tc s)) = [text]
         /\ content_of v = Some (VStr text).
Proof.
  intros tc s v Hinh Hres. dispatch_split tc s;
    try discriminate;
    try (rewrite (manageToolCall_unresolved tc s Hk Hk0 Hinh) in *);
    injection Hres as <-;
    first [ left; reflexivity
          | right; eexists; split; reflexivity ].
Qed.

(** An envelope echoes its call: its [name] is the call's name, and
    its response holds two fields, in this order - the input the tool
    read ([url] or [equation], as [args] gave it, or the name itself
    when no tool was found), then [content]. *)
Theorem manageToolCall_echoes_input :
  forall (tc : ToolCall) (s : S) (v : value),
    inherited (property_key tc) = false ->
    result (manageToolCall fetchTranscript evaluate tc s) = Normal v ->
    name_of v = Some (functionName tc)
    /\ exists response,
         response_of v = Some response
         /\ map fst response
            = [ (if (property_key tc =? "get_youtube_transcript")%string then "url"
                 else if (property_key tc =? "calculate")%string then "equation"
                 else "name");
                "content" ]
         /\ (property_key tc = "get_youtube_transcript" ->
             assoc "url" response = Some (field (args tc) "url"))
         /\ (property_key tc = "calculate" ->
             assoc "equation" response = Some (field (args tc) "equation"))
         /\ (property_key tc <> "get_youtube_transcript" ->
             property_key tc <> "calculate" ->
             assoc "name" response = Some (functionName tc)).
Proof.
  intros tc s v Hinh Hres. dispatch_split tc s;
    try discriminate;
    try (rewrite (manageToolCall_unresolved tc s Hk Hk0 Hinh) in *);
    injection Hres as <-;
    (split; [reflexivity |]); eexists; (split; [reflexivity |]);
    try rewrite (field_Get _ _ _ Hget);
    try rewrite Hk;
    try (apply String.eqb_neq in Hk as Hk1; apply String.eqb_neq in Hk0 as Hk2;
         rewrite Hk1, Hk2);
    repeat split; intros; try reflexivity; try congruence.
Qed.

(** One dispatch makes at most one outside call: [fetchTranscript]
    exactly when the name is [get_youtube_transcript] and [args] is not
    [undefined] or [null], [evaluate] exactly when the name is
    [calculate] and [args] is so, and never both; the world changes
    through that call alone, on the field read from [args]. *)
Theorem manageToolCall_external_calls :
  forall (tc : ToolCall) (s : S),
    let out := manageToolCall fetchTranscript evaluate tc s in
    let fetches :=
      (property_key tc =? "get_youtube_transcript")%string
      && negb (is_nullish (args tc)) in
    let evaluates :=
      (property_key tc =? "calculate")%string
      && negb (is_nullish (args tc)) in
    calls "fetchTranscript" (trace out) = (if fetches then 1 else 0)%nat
    /\ calls "evaluate" (trace out) = (if evaluates then 1 else 0)%nat
    /\ final out
       = (if fetches then snd (fetchTranscript (field (args tc) "url") s)
          else if evaluates then snd (evaluate (field (args tc) "equation") s)
          else s).
Proof.
  intros tc s. cbv zeta. dispatch_split tc s;
    try (rewrite Hk, Hnull; try rewrite (field_Get _ _ _ Hget);
         try rewrite Hcall; repeat split; reflexivity).
  apply String.eqb_neq in Hk as Hk1. apply String.eqb_neq in Hk0 as Hk2.
  rewrite Hk1, Hk2. cbn [andb].
  destruct (inherited (property_key tc)) eqn:Hinh.
  - destruct (inherited_not_external _ Hinh) as [Hf He].
    unfold manageToolCall.
    destruct (lookup_inherited _ Hk Hk0 Hinh) as [-> | ->].
    + repeat split.
    + unfold bind, emit, lift, after, trace, final, calls.
      cbn [fst snd app filter].
      rewrite Hf, He. repeat split.
  - rewrite (manageToolCall_unresolved tc s Hk Hk0 Hinh).
    repeat split.
Qed.


End ToolFacts.

(** ** The call summary: lemmas *)

Lemma split_cons sep s : exists w ws, split sep s = w :: ws.
Proof.
  induction s as [| c rest [w [ws IH]]]; cbn.
  - eauto.
  - destruct (Ascii.eqb c sep); [eauto |]. rewrite IH. eauto.
Qed.

Lemma append_empty_r s : s ++ "" = s.
Proof. induction s as [| c s IH]; [reflexivity | cbn; rewrite IH; reflexivity]. Qed.

Lemma truthy_app_l a b : truthy a = true -> truthy (a ++ b) = true.
Proof. destruct a; [discriminate | reflexivity]. Qed.

Lemma truthy_app_r a b : truthy b = true -> truthy (a ++ b) = true.
Proof. destruct a; [intro H; exact H | reflexivity]. Qed.

Lemma concat_cons2 sep x y l :
  String.concat sep (x :: y :: l) = x ++ sep ++ String.concat sep (y :: l).
Proof. reflexivity. Qed.

Lemma truthy_concat_head sep x l :
  truthy x = true -> truthy (String.concat sep (x :: l)) = true.
Proof.
  intros Hx. destruct l; [exact Hx |].
  rewrite concat_cons2. apply truthy_app_l, Hx.
Qed.

Lemma truthy_concat_sep sep x y l :
  truthy sep = true -> truthy (String.concat sep (x :: y :: l)) = true.
Proof.
  intros Hs. rewrite concat_cons2. apply truthy_app_r, truthy_app_l, Hs.
Qed.

Lemma title_word word :
  (if isNaN word then toUpperCaseString (charAt0 word) ++ slice1 word else word)
  = Spec.title word.
Proof.
  unfold isNaN, Spec.title.
  destruct (parses_as_number word); [reflexivity |].
  destruct word; reflexivity.
Qed.

Lemma formattedName_phrase n : formattedName n = Spec.phrase n.
Proof.
  unfold formattedName, Spec.phrase. f_equal.
  apply map_ext. exact title_word.
Qed.

Lemma truthy_title w : truthy w = true -> truthy (Spec.title w) = true.
Proof.
  unfold Spec.title. destruct (parses_as_number w); [exact (fun H => H) |].
  destruct w; [discriminate | reflexivity].
Qed.

Lemma truthy_phrase n : truthy n = true -> truthy (Spec.phrase n) = true.
Proof.
  unfold Spec.phrase. destruct n as [| c rest]; [discriminate |]. intros _.
  cbn [split]. destruct (Ascii.eqb c "_").
  - destruct (split_cons "_" rest) as [w [ws ->]]. cbn [map].
    apply truthy_concat_sep. reflexivity.
  - destruct (split_cons "_" rest) as [w [ws ->]]. cbn [map].
    apply truthy_concat_head, truthy_title. reflexivity.
Qed.

Lemma truncated_rendered v :
  (let stringValue := printed v in
   if (500 <? String.length stringValue)%nat
   then slice0 500 stringValue ++ "..."
   else stringValue) = Spec.rendered v.
Proof.
  unfold Spec.rendered, slice0. cbv zeta.
  destruct (Nat.ltb_spec 500 (String.length (printed v)));
    destruct (Nat.leb_spec (String.length (printed v)) 500);
    try reflexivity; lia.
Qed.

(** A [map] whose callback returns on the elements that are [ok] and
    throws [E] on the others returns on the lists that are [ok]
    throughout. *)
Lemma each_outcome {A B : Type} (f : A -> completion B) (g : A -> B)
  (ok : A -> bool) (E : value) (l : list A) :
  (forall a, In a l -> f a = if ok a then Normal (g a) else Throw E) ->
  each f l = if forallb ok l then Normal (map g l) else Throw E.
Proof.
  induction l as [| a l IH]; intros Hf; [reflexivity |].
  cbn [each forallb map]. rewrite (Hf a (or_introl eq_refl)).
  destruct (ok a); [| reflexivity].
  cbn [and_then andb]. rewrite IH by (intros x Hx; apply Hf; right; exact Hx).
  destruct (forallb ok l); reflexivity.
Qed.

Lemma formattedArgs_outcome tc :
  formattedArgs (args tc) =
  if forallb (fun kv => printable (snd kv)) (Spec.arguments tc)
  then Normal (String.concat ", "
                 (map (fun kv => fst kv ++ ": " ++ Spec.rendered (snd kv))
                    (Spec.arguments tc)))
  else Throw cannot_convert.
Proof.
  unfold formattedArgs, Spec.arguments.
  destruct (ToBoolean (args tc)); [| reflexivity].
  rewrite (each_outcome _
             (fun kv => fst kv ++ ": " ++ Spec.rendered (snd kv))
             (fun kv => printable (snd kv)) cannot_convert).
  - destruct (forallb _ (ObjectEntries (args tc))); reflexivity.
  - intros [key v] _. cbn [fst snd]. unfold ToString.
    destruct (printable v); [| reflexivity].
    cbn [and_then]. rewrite <- truncated_rendered. reflexivity.
Qed.

Lemma truthy_entries (lines : list (string * value)) (f : value -> string) :
  truthy (String.concat ", " (map (fun kv => fst kv ++ ": " ++ f (snd kv)) lines))
  = match lines with [] => false | _ => true end.
Proof.
  destruct lines as [| [k v] rest]; [reflexivity |].
  cbn [map]. apply truthy_concat_head. cbn [fst snd].
  apply truthy_app_r. reflexivity.
Qed.

Lemma describe_outcome tc :
  describe tc =
  if renders tc
  then Normal (if Spec.named tc then Spec.call_text tc else "")
  else Throw cannot_convert.
Proof.
  unfold describe, renders, Spec.named, Spec.call_text, truthy at 1.
  destruct (name tc) as [n |]; [| reflexivity].
  destruct (negb (n =? "")%string); [| reflexivity].
  cbv zeta. cbn [negb orb]. rewrite formattedArgs_outcome.
  destruct (forallb _ (Spec.arguments tc)); [| reflexivity].
  cbn [and_then]. rewrite formattedName_phrase, truthy_entries.
  unfold Spec.suffix. destruct (Spec.arguments tc).
  - rewrite append_empty_r. reflexivity.
  - reflexivity.
Qed.

Lemma truthy_call_text tc :
  Spec.named tc = true -> truthy (Spec.call_text tc) = true.
Proof.
  unfold Spec.named, Spec.call_text. destruct (name tc) as [n |]; [| discriminate].
  intros Hn. apply truthy_app_l, truthy_phrase. exact Hn.
Qed.

Lemma described_named calls :
  filter truthy
    (map (fun tc => if Spec.named tc then Spec.call_text tc else "") calls)
  = map Spec.call_text (filter Spec.named calls).
Proof.
  induction calls as [| tc calls IH]; [reflexivity |].
  cbn [map filter].
  destruct (Spec.named tc) eqn:Hn.
  - rewrite (truthy_call_text _ Hn), IH. reflexivity.
  - cbn. exact IH.
Qed.

(** The summary returns on the sequences whose calls all render, and
    then it is the summary the specification words; on the others it
    throws the error of the conversion that failed. *)
Lemma summary_outcome calls :
  processFunctionCallsNames calls =
  if forallb renders calls then Normal (Spec.summary calls)
  else Throw cannot_convert.
Proof.
  unfold processFunctionCallsNames, Spec.summary.
  rewrite (each_outcome _
             (fun tc => if Spec.named tc then Spec.call_text tc else "")
             renders cannot_convert)
    by (intros tc _; apply describe_outcome).
  destruct (forallb renders calls); [| reflexivity].
  cbn [and_then]. rewrite described_named. reflexivity.
Qed.

Lemma renders_nameless a : renders {| name := None; args := a |} = true.
Proof. reflexivity. Qed.

Lemma summary_without calls1 a calls2 :
  Spec.summary (calls1 ++ {| name := None; args := a |} :: calls2)
  = Spec.summary (calls1 ++ calls2).
Proof. unfold Spec.summary. rewrite !filter_app. reflexivity. Qed.

(** ** Lengths and characters: lemmas *)

Lemma chars_app a b : chars (a ++ b) = (chars a ++ chars b)%list.
Proof.
  unfold chars. induction a as [| c a IH]; [reflexivity | cbn; rewrite IH; reflexivity].
Qed.

Lemma length_join sep l :
  String.length (String.concat sep l)
  = (list_sum (map String.length l)
     + String.length sep * Nat.pred (Datatypes.length l))%nat.
Proof.
  induction l as [| x [| y l] IH].
  - cbn. lia.
  - cbn. lia.
  - rewrite concat_cons2, !length_app_string, IH.
    cbn [map list_sum fold_right Datatypes.length Nat.pred]. rewrite Nat.mul_succ_r. lia.
Qed.

Lemma chars_join sep l c :
  In c (chars (String.concat sep l)) ->
  In c (chars sep) \/ exists w, In w l /\ In c (chars w).
Proof.
  induction l as [| x [| y l] IH].
  - intros [].
  - intros H. right. exists x. split; [left; reflexivity | exact H].
  - rewrite concat_cons2, !chars_app, !in_app_iff. intros [H | [H | H]].
    + right. exists x. split; [left; reflexivity | exact H].
    + left. exact H.
    + destruct (IH H) as [Hs | [w [Hw Hc]]]; [left; exact Hs |].
      right. exists w. split; [right; exact Hw | exact Hc].
Qed.

(** ** The formatted name: lemmas *)

Lemma split_lengths s :
  (list_sum (map String.length (split "_" s))
   + Nat.pred (Datatypes.length (split "_" s)))%nat = String.length s.
Proof.
  induction s as [| c s IH]; [reflexivity |].
  cbn [split]. destruct (Ascii.eqb c "_").
  - destruct (split_cons "_" s) as [w [ws Hs]]. rewrite Hs in *.
    cbn [map list_sum fold_right Datatypes.length Nat.pred String.length] in *. lia.
  - destruct (split_cons "_" s) as [w [ws Hs]]. rewrite Hs in *.
    cbn [map list_sum fold_right Datatypes.length Nat.pred String.length] in *. lia.
Qed.

Lemma split_no_separator sep s w :
  In w (split sep s) -> ~ In sep (chars w).
Proof.
  revert w. induction s as [| c s IH]; intros w.
  - intros [<- | []]. intros [].
  - cbn [split]. destruct (Ascii.eqb_spec c sep) as [-> | Hne].
    + intros [<- | Hw]; [intros [] | apply IH; exact Hw].
    + destruct (split sep s) as [| w0 ws] eqn:Hs.
      * intros [<- | []]. intros [H | []]. congruence.
      * intros [<- | Hw].
        -- intros [H | H]; [congruence |].
           apply (IH w0); [left; reflexivity | exact H].
        -- apply IH. right. exact Hw.
Qed.

Lemma length_capitalize word : String.length (capitalize word) = String.length word.
Proof. destruct word; reflexivity. Qed.

Lemma toUpperCase_not_underscore c : toUpperCase c = "_"%char -> c = "_"%char.
Proof.
  destruct c as [[] [] [] [] [] [] [] []]; cbv; intros H; try exact H; discriminate.
Qed.

Lemma chars_capitalize word :
  ~ In "_"%char (chars word) -> ~ In "_"%char (chars (capitalize word)).
Proof.
  destruct word as [| c rest]; [exact (fun H => H) |].
  unfold capitalize, chars. cbn. intros Hno [H | H].
  - apply Hno. left. apply toUpperCase_not_underscore. exact H.
  - apply Hno. right. exact H.
Qed.

Lemma length_formattedName n :
  String.length (formattedName n) = String.length n.
Proof.
  unfold formattedName.
  rewrite length_join, map_map, length_map.
  rewrite (map_ext _ String.length).
  - cbn [String.length]. rewrite Nat.mul_1_l. apply split_lengths.
  - intros w. destruct (isNaN w); [apply length_capitalize | reflexivity].
Qed.

Lemma formattedName_no_underscore n : ~ In "_"%char (chars (formattedName n)).
Proof.
  unfold formattedName.
  intros H. apply chars_join in H as [[H | []] | [w [Hw Hc]]]; [discriminate |].
  apply in_map_iff in Hw as [token [<- Htoken]].
  pose proof (split_no_separator "_" n token Htoken) as Hno.
  destruct (isNaN token); [apply (chars_capitalize token Hno Hc) | apply (Hno Hc)].
Qed.

(** Formatting keeps the length of a name and removes every
    underscore. *)
Theorem formattedName_shape :
  forall n : string,
    String.length (formattedName n) = String.length n
    /\ ~ In "_"%char (chars (formattedName n)).
Proof.
  intros n. split.
  - apply length_formattedName.
  - apply formattedName_no_underscore.
Qed.

(** ** Tokens that parse as numbers: lemmas *)

Lemma rev_string_acc s : forall acc, rev_string acc s = rev_string "" s ++ acc.
Proof.
  induction s as [| c s IH]; intros acc; [reflexivity |].
  cbn [rev_string]. rewrite (IH (String c acc)), (IH (String c "")).
  rewrite app_assoc_string. reflexivity.
Qed.

Lemma rev_string_snoc y c :
  forall acc, rev_string acc (y ++ String c "") = String c (rev_string acc y).
Proof.
  induction y as [| d y IH]; intros acc; [reflexivity |].
  cbn [append rev_string]. apply IH.
Qed.

Lemma drop_while_snoc p y c :
  p c = false -> exists y', drop_while p (y ++ String c "") = y' ++ String c "".
Proof.
  intros Hc. induction y as [| d y [y' IH]].
  - exists "". cbn. rewrite Hc. reflexivity.
  - cbn [append drop_while]. destruct (p d).
    + exists y'. exact IH.
    + exists (String d y). reflexivity.
Qed.

(** Trimming keeps a first character that is not white space. *)
Lemma trim_head c rest :
  is_white c = false -> exists t, trim (String c rest) = String c t.
Proof.
  intros Hc. unfold trim. cbn [drop_while]. rewrite Hc.
  cbn [rev_string]. rewrite (rev_string_acc rest (String c "")).
  destruct (drop_while_snoc is_white (rev_string "" rest) c Hc) as [y' ->].
  rewrite rev_string_snoc. eauto.
Qed.

(** A token that parses as a number starts with a character that upper
    case leaves alone: white space, a digit, a sign, a dot, or the I of
    Infinity. *)
Lemma number_head_fixed c rest :
  parses_as_number (String c rest) = true -> toUpperCase c = c.
Proof.
  destruct (is_white c) eqn:Hw.
  - intros _. destruct c as [[] [] [] [] [] [] [] []]; try reflexivity; discriminate.
  - destruct (trim_head c rest Hw) as [t Ht].
    unfold parses_as_number. rewrite Ht. clear Ht Hw.
    destruct c as [[] [] [] [] [] [] [] []]; try (intros _; reflexivity);
      cbn;
      repeat match goal with
             | |- context [is_digit (Ascii ?b0 ?b1 ?b2 ?b3 ?b4 ?b5 ?b6 ?b7)] =>
                 change (is_digit (Ascii b0 b1 b2 b3 b4 b5 b6 b7)) with false
             end;
      cbn; rewrite ?Nat.sub_diag; cbn; discriminate.
Qed.

Lemma capitalize_number word :
  parses_as_number word = true -> capitalize word = word.
Proof.
  destruct word as [| c rest]; [reflexivity |].
  intros H. unfold capitalize. cbn. rewrite (number_head_fixed c rest H). reflexivity.
Qed.

(** The numeric test changes nothing: a token that parses as a number
    is left as it is by capitalization too, so the formatted name is the
    name with every token capitalized. *)
Theorem formattedName_capitalizes_every_token :
  forall n : string,
    formattedName n = String.concat " " (map capitalize (split "_" n)).
Proof.
  intros n. unfold formattedName. f_equal. apply map_ext. intros word.
  unfold isNaN. destruct (parses_as_number word) eqn:Hnum; cbn [negb].
  - symmetry. apply capitalize_number. exact Hnum.
  - reflexivity.
Qed.

(** ** The size and the composition of summaries: lemmas *)

Lemma length_substring_0 n s : (String.length (substring 0 n s) <= n)%nat.
Proof.
  revert s. induction n as [| n IH]; intros [| c s]; cbn; try lia.
  specialize (IH s). lia.
Qed.

Lemma length_rendered v : (String.length (Spec.rendered v) <= 503)%nat.
Proof.
  unfold Spec.rendered. cbv zeta.
  destruct (Nat.leb_spec (String.length (printed v)) 500); [lia |].
  rewrite length_app_string. pose proof (length_substring_0 500 (printed v)).
  cbn [String.length]. lia.
Qed.

Lemma length_entries entries :
  (String.length
     (String.concat ", "
        (map (fun kv => fst kv ++ ": " ++ Spec.rendered (snd kv)) entries))
   <= list_sum (map (fun kv => String.length (fst kv) + 507) entries))%nat.
Proof.
  rewrite length_join, map_map, length_map. cbn [String.length].
  unfold list_sum.
  induction entries as [| [key v] entries IH]; [cbn; lia |].
  cbn [map fold_right Datatypes.length Nat.pred fst snd] in *.
  rewrite !length_app_string. cbn [String.length].
  pose proof (length_rendered v).
  destruct entries; cbn [map fold_right Datatypes.length Nat.pred] in *; lia.
Qed.

Lemma length_arguments tc :
  (list_sum (map (fun kv => String.length (fst kv) + 507) (Spec.arguments tc))
   <= list_sum (map (fun kv => String.length (fst kv) + 507)
                  (ObjectEntries (args tc))))%nat.
Proof.
  unfold Spec.arguments. destruct (ToBoolean (args tc)); [lia | cbn; lia].
Qed.

Lemma length_call_text tc :
  Spec.named tc = true -> (String.length (Spec.call_text tc) <= budget tc)%nat.
Proof.
  unfold Spec.named, Spec.call_text, budget.
  destruct (name tc) as [n |]; [| discriminate]. intros _.
  rewrite length_app_string, <- formattedName_phrase, length_formattedName.
  pose proof (length_arguments tc) as Hargs.
  pose proof (length_entries (Spec.arguments tc)) as Hentries.
  unfold Spec.suffix. destruct (Spec.arguments tc) as [| entry entries].
  - cbn [String.length]. lia.
  - rewrite !length_app_string. cbn [String.length]. lia.
Qed.

Lemma length_summary calls :
  (String.length (Spec.summary calls)
   <= list_sum (map (fun tc => budget tc + 2) calls))%nat.
Proof.
  unfold Spec.summary. rewrite length_join. cbn [String.length].
  unfold list_sum.
  induction calls as [| tc calls IH]; [cbn; lia |].
  cbn [map filter fold_right].
  destruct (Spec.named tc) eqn:Hnamed.
  - pose proof (length_call_text tc Hnamed) as Htc.
    cbn [map fold_right Datatypes.length Nat.pred].
    destruct (filter Spec.named calls);
      cbn [map fold_right Datatypes.length Nat.pred] in *; lia.
  - lia.
Qed.

Lemma truthy_join l :
  forallb truthy l = true ->
  truthy (String.concat ", " l) = match l with [] => false | _ => true end.
Proof.
  destruct l as [| x l]; [reflexivity |]. cbn [forallb].
  intros H. apply andb_prop in H as [Hx _]. apply truthy_concat_head. exact Hx.
Qed.

Lemma join_app_cons x l1 y l2 :
  String.concat ", " ((x :: l1) ++ y :: l2)
  = String.concat ", " (x :: l1) ++ ", " ++ String.concat ", " (y :: l2).
Proof.
  revert x. induction l1 as [| x' l1 IH]; intros x.
  - reflexivity.
  - change ((x :: x' :: l1) ++ y :: l2)%list
      with (x :: ((x' :: l1) ++ y :: l2))%list.
    change ((x' :: l1) ++ y :: l2)%list with (x' :: (l1 ++ y :: l2))%list.
    rewrite !concat_cons2.
    change (x' :: (l1 ++ y :: l2))%list with ((x' :: l1) ++ y :: l2)%list.
    rewrite (IH x'), !app_assoc_string. reflexivity.
Qed.

Lemma join_app l1 l2 :
  forallb truthy l1 = true -> forallb truthy l2 = true ->
  String.concat ", " (l1 ++ l2)
  = joined (String.concat ", " l1) (String.concat ", " l2).
Proof.
  intros H1 H2. unfold joined. rewrite (truthy_join l1 H1), (truthy_join l2 H2).
  destruct l1 as [| x l1]; [reflexivity |].
  destruct l2 as [| y l2]; [rewrite app_nil_r; reflexivity |].
  apply join_app_cons.
Qed.

Lemma forallb_filter {A} (p : A -> bool) l : forallb p (filter p l) = true.
Proof.
  induction l as [| x l IH]; [reflexivity |]. cbn [filter].
  destruct (p x) eqn:Hp; [cbn; rewrite Hp; exact IH | exact IH].
Qed.

Lemma summary_app calls1 calls2 :
  Spec.summary (calls1 ++ calls2)
  = joined (Spec.summary calls1) (Spec.summary calls2).
Proof.
  unfold Spec.summary. rewrite filter_app, map_app.
  apply join_app; apply forallb_forall; intros x Hx;
    apply in_map_iff in Hx as [tc [<- Htc]];
    apply filter_In in Htc as [_ Htc]; apply truthy_call_text, Htc.
Qed.

Lemma summary_empty calls :
  Spec.summary calls = ""
  <-> (forall tc, In tc calls -> name tc = None \/ name tc = Some "").
Proof.
  unfold Spec.summary. split.
  - intros Hempty tc Hin.
    destruct (Spec.named tc) eqn:Hnamed.
    + exfalso.
      assert (Hmem : In (Spec.call_text tc)
                       (map Spec.call_text (filter Spec.named calls)))
        by (apply in_map, filter_In; split; assumption).
      assert (Hall : forallb truthy
                       (map Spec.call_text (filter Spec.named calls)) = true).
      { apply forallb_forall. intros x Hx.
        apply in_map_iff in Hx as [tc' [<- Htc']].
        apply filter_In in Htc' as [_ Htc']. apply truthy_call_text, Htc'. }
      pose proof (truthy_join _ Hall) as Hj. rewrite Hempty in Hj.
      destruct (map Spec.call_text (filter Spec.named calls));
        [destruct Hmem | discriminate].
    + unfold Spec.named in Hnamed. destruct (name tc) as [n |]; [| left; reflexivity].
      right. f_equal. apply negb_false_iff, String.eqb_eq in Hnamed. exact Hnamed.
  - intros Hall.
    assert (Hnone : filter Spec.named calls = []).
    { induction calls as [| tc calls IH]; [reflexivity |].
      cbn [filter].
      assert (Htc : Spec.named tc = false).
      { unfold Spec.named. destruct (Hall tc (or_introl eq_refl)) as [-> | ->];
          reflexivity. }
      rewrite Htc. apply IH. intros tc' Hin. apply Hall. right. exact Hin. }
    rewrite Hnone. reflexivity.
Qed.

Lemma renders_unnamed calls :
  (forall tc, In tc calls -> name tc = None \/ name tc = Some "") ->
  forallb renders calls = true.
Proof.
  intros Hall. apply forallb_forall. intros tc Hin.
  unfold renders, Spec.named. destruct (Hall tc Hin) as [-> | ->]; reflexivity.
Qed.

(** ** The call summary: results *)

(** C7, as amended.  On every sequence of calls whose argument values
    print, [processFunctionCallsNames] returns the summary the
    specification describes: each named call gives its name split on
    ['_'], the tokens that do not parse as a number capitalized at their
    first character and all tokens joined by spaces; a call with at
    least one argument entry appends [" (key: value, ...)"], each value
    printed and, beyond 500 characters, cut to its first 500 followed by
    ["..."]; the per-call strings are joined by [", "].  On every other
    sequence - a named call holds an argument value that [String] cannot
    convert - it throws that conversion's [TypeError].  The call to
    [get_youtube_transcript] with [url: "http://x"] gives
    ["Get Youtube Transcript (url: http://x)"]. *)
Theorem processFunctionCallsNames_summary :
  (forall functionCalls,
     processFunctionCallsNames functionCalls
     = if forallb renders functionCalls
       then Normal (Spec.summary functionCalls)
       else Throw cannot_convert)
  /\ processFunctionCallsNames [transcript_call]
     = Normal "Get Youtube Transcript (url: http://x)".
Proof.
  split; [exact summary_outcome | reflexivity].
Qed.

(** C7, as first stated, fails on a call whose argument is an object
    with an own [toString] that is no function: no summary is
    returned. *)
Lemma processFunctionCallsNames_summary_fails :
  processFunctionCallsNames [opaque_call] = Throw cannot_convert
  /\ processFunctionCallsNames [opaque_call]
     <> Normal (Spec.summary [opaque_call]).
Proof. split; [reflexivity | discriminate]. Qed.

(** C8, as amended.  [processFunctionCallsNames] returns a string
    exactly on the sequences whose calls all render - a call renders
    when it has no name or when all its argument values print.  The
    empty sequence gives the empty string; a call whose name is absent
    contributes the empty string, which the final join leaves out,
    wherever the call stands and whatever its arguments; and a sequence
    of nameless calls alone gives the empty string. *)
Theorem processFunctionCallsNames_nameless :
  processFunctionCallsNames [] = Normal ""
  /\ (forall a, describe {| name := None; args := a |} = Normal "")
  /\ (forall before a rest,
        processFunctionCallsNames
          (before ++ {| name := None; args := a |} :: rest)
        = processFunctionCallsNames (before ++ rest))
  /\ (forall arguments : list value,
        processFunctionCallsNames
          (map (fun a => {| name := None; args := a |}) arguments) = Normal "")
  /\ (forall functionCalls,
        (exists text, processFunctionCallsNames functionCalls = Normal text)
        <-> forallb renders functionCalls = true).
Proof.
  split; [reflexivity |]. split; [reflexivity |]. split; [| split].
  - intros before a rest. rewrite !summary_outcome, !forallb_app.
    cbn [forallb]. rewrite renders_nameless, summary_without. reflexivity.
  - intros arguments. rewrite summary_outcome.
    rewrite (renders_unnamed _) by
      (intros tc Hin; apply in_map_iff in Hin as [a [<- _]]; left; reflexivity).
    f_equal. apply summary_empty.
    intros tc Hin. apply in_map_iff in Hin as [a [<- _]]. left. reflexivity.
  - intros functionCalls. rewrite summary_outcome.
    destruct (forallb renders functionCalls); split; intros H;
      try reflexivity; try discriminate; eauto.
    destruct H as [text H]. discriminate.
Qed.

(** C8, as first stated, fails: the function is not total.  After a
    nameless call, a named call whose argument holds a value that does
    not print makes it throw. *)
Lemma processFunctionCallsNames_not_total :
  processFunctionCallsNames opaque_calls = Throw cannot_convert.
Proof. reflexivity. Qed.

Lemma processFunctionCallsNames_nameless_witness :
  exists text, processFunctionCallsNames [transcript_call] = Normal text.
Proof.
  apply (proj2 (proj2 (proj2 (proj2 (proj2
           processFunctionCallsNames_nameless))) [transcript_call])).
  reflexivity.
Defined.

(** The length of a summary is bounded by the names and keys alone:
    each call takes at most its [budget] and a separator, however long
    its argument values print. *)
Theorem processFunctionCallsNames_budget :
  forall (functionCalls : list ToolCall) (text : string),
    processFunctionCallsNames functionCalls = Normal text ->
    (String.length text
     <= list_sum (map (fun tc => budget tc + 2) functionCalls))%nat.
Proof.
  intros functionCalls text. rewrite summary_outcome.
  destruct (forallb renders functionCalls); [| discriminate].
  intros [= <-]. apply length_summary.
Qed.

(** The summary of two sequences in a row: when both have a summary, it
    is the two joined by [", "], or the one that is not empty; when
    either throws, so does the whole. *)
Theorem processFunctionCallsNames_app :
  forall first second : list ToolCall,
    processFunctionCallsNames (first ++ second)
    = match processFunctionCallsNames first,
            processFunctionCallsNames second with
      | Normal a, Normal b => Normal (joined a b)
      | Throw e, _ => Throw e
      | Normal _, Throw e => Throw e
      end.
Proof.
  intros first second. rewrite !summary_outcome, forallb_app.
  destruct (forallb renders first), (forallb renders second);
    try reflexivity.
  cbn [andb]. rewrite summary_app. reflexivity.
Qed.

(** The summary is empty exactly when no call has a name: each name
    is absent or the empty string. *)
Theorem processFunctionCallsNames_empty_iff :
  forall functionCalls : list ToolCall,
    processFunctionCallsNames functionCalls = Normal ""
    <-> (forall tc, In tc functionCalls ->
           name tc = None \/ name tc = Some "").
Proof.
  intros functionCalls. rewrite summary_outcome. split.
  - destruct (forallb renders functionCalls); [| discriminate].
    intros [= Hempty]. apply summary_empty. exact Hempty.
  - intros Hall. rewrite (renders_unnamed _ Hall).
    f_equal. apply summary_empty. exact Hall.
Qed.

(** ** The retry executor: results *)

(** C3. Evaluated on two operations that fail on every call, with
    [maxRetries = 2].  One fails with [Error("boom")]: it is called
    three times and two waits of the default 1000 ms are made, yet the
    error thrown at the end reads "after 2 attempts" - it quotes
    [maxRetries], one less than the attempts made.  The other rejects
    with [undefined]: reading [err.message] throws in the catch block,
    so it is called once, not three times, and no wait is made. *)
Theorem retryOperation_quotes_maxRetries :
  (let out := retryOperation always_boom 2 None tt in
   calls "fn" (trace out) = 3%nat
   /\ waits (trace out) = [1000; 1000]
   /\ result out
      = Throw (VError "Error" "Operation failed after 2 attempts: boom"))
  /\ (let out := retryOperation always_undefined 2 None tt in
      calls "fn" (trace out) = 1%nat
      /\ waits (trace out) = []
      /\ result out
         = Throw (TypeError
                    "Cannot read properties of undefined (reading 'message')")).
Proof. vm_compute. repeat split. Qed.

(** C4. Evaluated on an operation that rejects with [undefined] on its
    first call and resolves with 1 on its second, with [maxRetries = 1]:
    the success of attempt 1 is never reached.  Reading [err.message] in
    the catch block throws, and that [TypeError] leaves [retryOperation]
    after one call and no wait. *)
Theorem retryOperation_rejection_without_message :
  let out := retryOperation rejects_once 1 None 0%nat in
  settles rejects_once 0 0%nat = Throw VUndefined
  /\ settles rejects_once 1 0%nat = Normal (VNum 1)
  /\ calls "fn" (trace out) = 1%nat
  /\ waits (trace out) = []
  /\ result out
     = Throw (TypeError "Cannot read properties of undefined (reading 'message')").
Proof. vm_compute. repeat split. Qed.

(** C5. With [maxRetries = 0], whatever the operation: it is called
    exactly once and no wait is made; a result of that call is returned,
    and a failure of it makes [retryOperation] fail at once - with the
    error built after the loop or, when the thrown value has no message
    to read or one that does not print, with the [TypeError] of that
    read or conversion. *)
Theorem retryOperation_zero_retries :
  forall (S : Type) (fn : @operation S) (delayMs : option Z) (s : S),
    let out := retryOperation fn 0 delayMs s in
    calls "fn" (trace out) = 1%nat
    /\ waits (trace out) = []
    /\ final out = snd (fn s)
    /\ match fst (fn s) with
       | Normal r => result out = Normal r
       | Throw err =>
           result out =
           match Get err "message" with
           | Normal m =>
               match ToString m with
               | Normal text =>
                   Throw (VError "Error"
                            ("Operation failed after 0 attempts: " ++ text))
               | Throw x => Throw x
               end
           | Throw x => Throw x
           end
       end.
Proof.
  intros S fn delayMs s out. subst out. unfold retryOperation.
  rewrite retry_from_step. change (0 <=? 0) with true. cbv iota.
  destruct (fn s) as [[r | err] s1]; cbn [fst snd].
  - repeat split.
  - assert (Hshape :
      match Get err "message" with
      | Normal m =>
          match ToString m with
          | Normal text =>
              @Throw value
                (VError "Error" ("Operation failed after 0 attempts: " ++ text))
          | Throw x => Throw x
          end
      | Throw x => Throw x
      end
      = match message_text err with
        | Normal text =>
            Throw (VError "Error" ("Operation failed after 0 attempts: " ++ text))
        | Throw x => Throw x
        end).
    { unfold message_text. destruct (Get err "message"); reflexivity. }
    rewrite Hshape, attempt_failed_spec.
    destruct (message_text err) as [text | x] eqn:Hget.
    + rewrite retry_from_step. change (0 + 1 <=? 0) with false. cbv iota.
      rewrite all_failed_spec, Hget.
      unfold attempt_lines. change (0 <? 0) with false. cbv iota.
      repeat split.
    + repeat split.
Qed.

(** C10. With [maxRetries < 0] the loop body never runs: the operation
    is not called, nothing is written or waited for, the world is left as
    it was, and [retryOperation] fails - not with the error built from
    the attempts, but with the [TypeError] of reading [message] off the
    still unset [error]. *)
Theorem retryOperation_negative_retries :
  forall (S : Type) (fn : @operation S) (maxRetries : Z)
         (delayMs : option Z) (s : S),
    maxRetries < 0 ->
    let out := retryOperation fn maxRetries delayMs s in
    out = (Throw (TypeError
                    "Cannot read properties of undefined (reading 'message')"),
           s, [])
    /\ calls "fn" (trace out) = 0%nat
    /\ exists e, result out = Throw e /\ is_TypeError e = true.
Proof.
  intros S fn maxRetries delayMs s Hneg out.
  assert (Hout : out = (Throw (TypeError
                    "Cannot read properties of undefined (reading 'message')"),
                        s, [])).
  { subst out. unfold retryOperation.
    rewrite retry_from_step, (proj2 (Z.leb_gt 0 maxRetries) Hneg).
    rewrite all_failed_spec. reflexivity. }
  rewrite Hout. repeat split. eexists. split; reflexivity.
Qed.

Lemma retryOperation_negative_retries_witness :
  -1 < 0
  /\ retryOperation always_boom (-1) None tt
     = (Throw (TypeError
                 "Cannot read properties of undefined (reading 'message')"),
        tt, []).
Proof.
  split; [lia |].
  apply (retryOperation_negative_retries unit always_boom (-1) None tt). lia.
Defined.

(** The general form of a first success.  When every failure before
    it carries a message that reads and prints, a success at attempt
    [k <= maxRetries] is returned after [k + 1] calls and [k] waits of
    [delayMs] each. *)
Theorem retryOperation_first_success :
  forall (S : Type) (fn : @operation S) (maxRetries : Z) (delayMs : Z)
         (k : nat) (r : value) (s : S),
    Z.of_nat k <= maxRetries ->
    (forall i, (i < k)%nat ->
       exists e, settles fn i s = Throw e /\ tells e = true) ->
    settles fn k s = Normal r ->
    let out := retryOperation fn maxRetries (Some delayMs) s in
    result out = Normal r
    /\ final out = state_after fn (Datatypes.S k) s
    /\ calls "fn" (trace out) = Datatypes.S k
    /\ waits (trace out) = repeat delayMs k.
Proof.
  intros S fn maxRetries delayMs k r s Hk Hfail Hok.
  unfold retryOperation.
  apply retry_from_first_success; [lia | exact Hfail | exact Hok].
Qed.

(** The general form of exhaustion.  When every call fails with a
    value whose message reads and prints, [maxRetries = N >= 0] gives
    [N + 1] calls and [N] waits, and the error thrown quotes [N] and the
    text of the last failure's message. *)
Theorem retryOperation_all_fail :
  forall (S : Type) (fn : @operation S) (N : nat) (delayMs : Z) (s : S),
    (forall i, (i <= N)%nat ->
       exists e, settles fn i s = Throw e /\ tells e = true) ->
    exists last,
      settles fn N s = Throw last
      /\ let out := retryOperation fn (Z.of_nat N) (Some delayMs) s in
         result out =
           Throw (VError "Error"
                    ("Operation failed after " ++ NumberToString (Z.of_nat N)
                       ++ " attempts: " ++ told last))
         /\ final out = state_after fn (Datatypes.S N) s
         /\ calls "fn" (trace out) = Datatypes.S N
         /\ waits (trace out) = repeat delayMs N.
Proof.
  intros S fn N delayMs s Hfail. unfold retryOperation.
  apply retry_from_all_fail; [lia | exact Hfail].
Qed.

Lemma retryOperation_first_success_witness :
  result (retryOperation busy_twice 3 (Some 250) 0%nat) = Normal (VNum 7)
  /\ final (retryOperation busy_twice 3 (Some 250) 0%nat) = 3%nat
  /\ calls "fn" (trace (retryOperation busy_twice 3 (Some 250) 0%nat)) = 3%nat
  /\ waits (trace (retryOperation busy_twice 3 (Some 250) 0%nat)) = [250; 250].
Proof.
  apply (retryOperation_first_success nat busy_twice 3 250 2 (VNum 7) 0%nat).
  - lia.
  - intros [| [| i]] Hi; [| | lia]; eexists; split; reflexivity.
  - reflexivity.
Defined.

Lemma retryOperation_all_fail_witness :
  exists last,
    settles always_boom 2 tt = Throw last
    /\ result (retryOperation always_boom 2 (Some 250) tt)
       = Throw (VError "Error"
                  ("Operation failed after 2 attempts: " ++ told last))
    /\ final (retryOperation always_boom 2 (Some 250) tt) = tt
    /\ calls "fn" (trace (retryOperation always_boom 2 (Some 250) tt)) = 3%nat
    /\ waits (trace (retryOperation always_boom 2 (Some 250) tt)) = [250; 250].
Proof.
  apply (retryOperation_all_fail unit always_boom 2 250 tt).
  intros [| [| [| i]]] Hi; [| | | lia]; eexists; split; reflexivity.
Defined.

(** ** The retry executor: bounds *)

(** Whatever the operation does, [retryOperation] with an integer
    [maxRetries] calls it at most [maxRetries + 1] times (never, when
    [maxRetries] is negative; at least once otherwise), waits exactly
    once between two calls and never after the last one, each time for
    [delayMs] (1000 when it is omitted), and leaves the world as its
    calls left it. *)
Theorem retryOperation_call_budget :
  forall (S : Type) (fn : @operation S) (maxRetries : Z)
         (delayMs : option Z) (s : S),
    let out := retryOperation fn maxRetries delayMs s in
    let made := calls "fn" (trace out) in
    (made <= Z.to_nat (maxRetries + 1))%nat
    /\ (maxRetries < 0 \/ (1 <= made)%nat)
    /\ waits (trace out)
       = repeat (match delayMs with Some ms => ms | None => 1000 end)
           (Nat.pred made)
    /\ final out = state_after fn made s.
Proof.
  intros S fn maxRetries delayMs s. unfold retryOperation. cbv zeta.
  destruct (retry_from_calls fn maxRetries
              (match delayMs with Some ms => ms | None => 1000 end)
              (Z.to_nat (maxRetries + 1)) 0 VUndefined s)
    as [Hmost [Hleast [Hwaits Hfinal]]]; [f_equal; lia |].
  repeat split; try assumption.
  destruct (Z.ltb_spec maxRetries 0); [left; assumption | right; apply Hleast; lia].
Qed.

(** A value [retryOperation] returns is the operation's own: the
    result of its first call that succeeded, at an attempt within
    [maxRetries], every earlier call having failed with a value that
    carries a message. *)
Theorem retryOperation_returns_first_success :
  forall (S : Type) (fn : @operation S) (maxRetries : Z)
         (delayMs : option Z) (s : S) (r : value),
    result (retryOperation fn maxRetries delayMs s) = Normal r ->
    exists k : nat,
      Z.of_nat k <= maxRetries
      /\ settles fn k s = Normal r
      /\ (forall i, (i < k)%nat ->
            exists e, settles fn i s = Throw e /\ is_nullish e = false)
      /\ calls "fn" (trace (retryOperation fn maxRetries delayMs s))
         = Datatypes.S k.
Proof.
  intros S fn maxRetries delayMs s r Hres. unfold retryOperation in *.
  destruct (retry_from_returned fn maxRetries _ r _ 0 VUndefined s eq_refl Hres)
    as [k [Hk Hrest]].
  exists k. split; [lia | exact Hrest].
Qed.

(** [retryOperation] never rethrows what the operation threw.  When
    it fails with [maxRetries] negative, no call was made and it throws
    the [TypeError] of reading [message] off the unset [error].
    Otherwise what it throws comes from the failure [e] of the last call
    it made and is never [e] itself: it is the [TypeError] of reading or
    printing the message of [e]; or, that call being the last one
    allowed, the error it builds from [maxRetries] and the text of that
    message. *)
Theorem retryOperation_throws_own_error :
  forall (S : Type) (fn : @operation S) (maxRetries : Z)
         (delayMs : option Z) (s : S) (thrown : value),
    result (retryOperation fn maxRetries delayMs s) = Throw thrown ->
    (maxRetries < 0
     /\ calls "fn" (trace (retryOperation fn maxRetries delayMs s)) = 0%nat
     /\ thrown
        = TypeError "Cannot read properties of undefined (reading 'message')")
    \/ exists (k : nat) (e : value),
         calls "fn" (trace (retryOperation fn maxRetries delayMs s))
         = Datatypes.S k
         /\ Z.of_nat k <= maxRetries
         /\ settles fn k s = Throw e
         /\ thrown <> e
         /\ ((message_text e = Throw thrown /\ is_TypeError thrown = true)
             \/ (Z.of_nat k = maxRetries
                 /\ exists text,
                      message_text e = Normal text
                      /\ thrown = exhausted maxRetries text)).
Proof.
  intros S fn maxRetries delayMs s thrown Hres. unfold retryOperation in *.
  destruct (Z.ltb_spec maxRetries 0) as [Hneg | Hpos].
  - left. rewrite retry_from_step, (proj2 (Z.leb_gt 0 maxRetries) Hneg) in *.
    rewrite all_failed_spec in *. injection Hres as <-. repeat split. exact Hneg.
  - destruct (retry_from_thrown fn maxRetries _ thrown (Z.to_nat maxRetries)
                0 VUndefined s ltac:(lia) Hres)
      as [k [e [Hk [Hcalls [Hsettles Hwhy]]]]].
    right. exists k, e. split; [exact Hcalls |]. split; [lia |].
    split; [exact Hsettles |].
    destruct Hwhy as [Hthrows | [-> [text [Htext ->]]]].
    + destruct (message_text_throws e thrown Hthrows) as [Hty Hfresh].
      split; [exact Hfresh |]. left. split; assumption.
    + split; [exact (exhausted_fresh maxRetries e text Htext) |].
      right. split; [lia |]. exists text. split; [exact Htext | reflexivity].
Qed.

Lemma manageToolCall_registered_witness :
  exists func,
    assoc "calculate" (tool_calls_to_function no_transcript two) = Some func
    /\ result (manageToolCall no_transcript two sum_call tt)
       = result (func (args sum_call) (VStr "calculate") tt)
    /\ final (manageToolCall no_transcript two sum_call tt)
       = final (func (args sum_call) (VStr "calculate") tt)
    /\ trace (manageToolCall no_transcript two sum_call tt)
       = Call "calculate" :: trace (func (args sum_call) (VStr "calculate") tt).
Proof.
  apply (manageToolCall_registered no_transcript two sum_call "calculate" tt).
  - reflexivity.
  - right. reflexivity.
Defined.

Lemma handlers_read_args_outside_try_witness :
  exists e,
    manageToolCall no_transcript two bare_call tt
    = (Throw e, tt, [Call "calculate"])
    /\ is_TypeError e = true.
Proof.
  apply (proj2 (proj2 (handlers_read_args_outside_try no_transcript two))
           bare_call "calculate" tt).
  - reflexivity.
  - right. reflexivity.
  - reflexivity.
Defined.

Lemma manageToolCall_unknown_name_witness :
  manageToolCall no_transcript two weather_call tt
  = (Normal
       (VArr [VObj [("functionResponse",
                     VObj [("name", VStr "get_weather");
                           ("response",
                            VObj [("name", VStr "get_weather");
                                  ("content",
                                   VStr "No function found for get_weather")])])]]),
     tt,
     [ConsoleError "No function found for get_weather"]).
Proof.
  apply (manageToolCall_unknown_name no_transcript two weather_call tt).
  - discriminate.
  - discriminate.
  - reflexivity.
Defined.


(** ** Instances *)

Lemma retryOperation_returns_first_success_witness :
  exists k : nat,
    Z.of_nat k <= 3
    /\ settles busy_twice k 0%nat = Normal (VNum 7)
    /\ (forall i, (i < k)%nat ->
          exists e, settles busy_twice i 0%nat = Throw e /\ is_nullish e = false)
    /\ calls "fn" (trace (retryOperation busy_twice 3 (Some 250) 0%nat))
       = Datatypes.S k.
Proof.
  apply (retryOperation_returns_first_success
           nat busy_twice 3 (Some 250) 0%nat (VNum 7)).
  reflexivity.
Defined.

Lemma retryOperation_throws_own_error_witness :
  (2 < 0
   /\ calls "fn" (trace (retryOperation always_boom 2 None tt)) = 0%nat
   /\ exhausted 2 "boom"
      = TypeError "Cannot read properties of undefined (reading 'message')")
  \/ exists (k : nat) (e : value),
       calls "fn" (trace (retryOperation always_boom 2 None tt))
       = Datatypes.S k
       /\ Z.of_nat k <= 2
       /\ settles always_boom k tt = Throw e
       /\ exhausted 2 "boom" <> e
       /\ ((message_text e = Throw (exhausted 2 "boom")
            /\ is_TypeError (exhausted 2 "boom") = true)
           \/ (Z.of_nat k = 2
               /\ exists text,
                    message_text e = Normal text
                    /\ exhausted 2 "boom" = exhausted 2 text)).
Proof.
  apply (retryOperation_throws_own_error unit always_boom 2 None tt
           (exhausted 2 "boom")).
  reflexivity.
Defined.


Lemma manageToolCall_logs_its_content_witness :
  errors (trace (manageToolCall no_transcript two transcript_call tt)) = []
  \/ exists text,
       errors (trace (manageToolCall no_transcript two transcript_call tt)) = [text]
       /\ content_of
            (envelope (VStr "get_youtube_transcript")
               [("url", VStr "http://x");
                ("content",
                 VStr "Error fetching the transcript: Error: Transcript is disabled on this video")])
          = Some (VStr text).
Proof.
  apply (manageToolCall_logs_its_content no_transcript two transcript_call tt).
  - reflexivity.
  - reflexivity.
Defined.

Lemma manageToolCall_echoes_input_witness :
  name_of sum_envelope = Some (functionName sum_call)
  /\ exists response,
       response_of sum_envelope = Some response
       /\ map fst response
          = [ (if (property_key sum_call =? "get_youtube_transcript")%string
               then "url"
               else if (property_key sum_call =? "calculate")%string
                    then "equation"
                    else "name");
              "content" ]
       /\ (property_key sum_call = "get_youtube_transcript" ->
           assoc "url" response = Some (field (args sum_call) "url"))
       /\ (property_key sum_call = "calculate" ->
           assoc "equation" response = Some (field (args sum_call) "equation"))
       /\ (property_key sum_call <> "get_youtube_transcript" ->
           property_key sum_call <> "calculate" ->
           assoc "name" response = Some (functionName sum_call)).
Proof.
  apply (manageToolCall_echoes_input no_transcript two sum_call tt sum_envelope).
  - reflexivity.
  - reflexivity.
Defined.



Lemma processFunctionCallsNames_budget_witness :
  (String.length "Get Youtube Transcript (url: http://x)"
   <= list_sum (map (fun tc => budget tc + 2) [transcript_call]))%nat.
Proof.
  apply (processFunctionCallsNames_budget [transcript_call]
           "Get Youtube Transcript (url: http://x)").
  reflexivity.
Defined.

Lemma processFunctionCallsNames_empty_iff_witness :
  processFunctionCallsNames nameless_calls = Normal "".
Proof.
  apply (proj2 (processFunctionCallsNames_empty_iff nameless_calls)).
  intros tc [<- | [<- | []]]; [left | right]; reflexivity.
Defined.
